(** * Community feed: likes, karma ledger, leaderboard and comment tree

    A shallow embedding of [backend/feed/models.py] and
    [backend/feed/views.py].  Database tables are lists of rows in the
    order the store keeps them; a view is a function from the state
    before the request to an HTTP outcome and the state after it.
    Integers are [Z], timestamps are [Z] microseconds, Python dicts
    are [gmap]s. *)

From stdpp Require Import gmap strings list fin_maps sorting.
From Stdlib Require Import ZArith Lia.

Set Warnings "-register-all".

Local Open Scope Z_scope.

(** ** models.py *)

Module Models.

(** [settings.AUTH_USER_MODEL]: only [id] and [username] are read. *)
Record User := mkUser {
  user_id : Z;
  username : string;
}.

Record Post := mkPost {
  post_id : Z;
  post_author : Z;
  post_body : string;
  post_created_at : Z;
}.

Record Comment := mkComment {
  comment_id : Z;
  comment_post : Z;
  comment_author : Z;
  comment_parent : option Z;
  comment_body : string;
  comment_created_at : Z;
}.

Record PostLike := mkPostLike {
  pl_post : Z;
  pl_user : Z;
  pl_created_at : Z;
}.

Record CommentLike := mkCommentLike {
  cl_comment : Z;
  cl_user : Z;
  cl_created_at : Z;
}.

Record KarmaEvent := mkKarmaEvent {
  ke_user : Z;
  ke_actor : Z;
  ke_event_type : string;
  ke_delta : Z;
  ke_post : option Z;
  ke_comment : option Z;
  ke_created_at : Z;
}.

(** The tables.  The surrogate primary keys of the like tables and of
    the ledger are read by no view and are left out. *)
Record State := mkState {
  users : list User;
  posts : list Post;
  comments : list Comment;
  post_likes : list PostLike;
  comment_likes : list CommentLike;
  karma_events : list KarmaEvent;
}.

Definition set_post_likes (st : State) (t : list PostLike) : State :=
  mkState (users st) (posts st) (comments st) t (comment_likes st) (karma_events st).

Definition set_comment_likes (st : State) (t : list CommentLike) : State :=
  mkState (users st) (posts st) (comments st) (post_likes st) t (karma_events st).

Definition set_karma_events (st : State) (t : list KarmaEvent) : State :=
  mkState (users st) (posts st) (comments st) (post_likes st) (comment_likes st) t.

(** What a view call can end in: a value, [Http404] raised by
    [get_object_or_404], or a database [IntegrityError]. *)
Inductive Result (A : Type) : Type :=
  | Ok (a : A)
  | Http404
  | IntegrityError.
Global Arguments Ok {A} a.
Global Arguments Http404 {A}.
Global Arguments IntegrityError {A}.

(** Sequencing: an exception skips what follows. *)
Global Instance Result_bind : MBind Result := λ A B k m,
  match m with
  | Ok a => k a
  | Http404 => Http404
  | IntegrityError => IntegrityError
  end.

(** [get_object_or_404(Model, id=...)] *)
Definition get_object_or_404 {A} (pk : A → Z) (table : list A) (id : Z) : Result A :=
  match List.find (λ row, bool_decide (pk row = id)) table with
  | Some row => Ok row
  | None => Http404
  end.

(** [PostLike.objects.filter(post=post, user=user)] *)
Definition PostLike_filter (post user : Z) (table : list PostLike) : list PostLike :=
  filter (λ l, pl_post l = post ∧ pl_user l = user) table.

(** [PostLike.objects.create(post=post, user=user)] under the
    constraint [uniq_post_like]; [created_at] is [auto_now_add]. *)
Definition PostLike_create (now post user : Z) (st : State) : Result State :=
  match PostLike_filter post user (post_likes st) with
  | [] => Ok (set_post_likes st (post_likes st ++ [mkPostLike post user now]))
  | _ :: _ => IntegrityError
  end.

(** [PostLike.objects.filter(post=post, user=user).delete()]: the
    number of rows deleted and the state without them. *)
Definition PostLike_delete (post user : Z) (st : State) : Z * State :=
  (Z.of_nat (length (PostLike_filter post user (post_likes st))),
   set_post_likes st
     (filter (λ l, ¬ (pl_post l = post ∧ pl_user l = user)) (post_likes st))).

(** [PostLike.objects.filter(post=post).count()] *)
Definition PostLike_count (post : Z) (st : State) : Z :=
  Z.of_nat (length (filter (λ l, pl_post l = post) (post_likes st))).

Definition CommentLike_filter (comment user : Z) (table : list CommentLike)
  : list CommentLike :=
  filter (λ l, cl_comment l = comment ∧ cl_user l = user) table.

(** [CommentLike.objects.create] under [uniq_comment_like]. *)
Definition CommentLike_create (now comment user : Z) (st : State) : Result State :=
  match CommentLike_filter comment user (comment_likes st) with
  | [] => Ok (set_comment_likes st (comment_likes st ++ [mkCommentLike comment user now]))
  | _ :: _ => IntegrityError
  end.

Definition CommentLike_delete (comment user : Z) (st : State) : Z * State :=
  (Z.of_nat (length (CommentLike_filter comment user (comment_likes st))),
   set_comment_likes st
     (filter (λ l, ¬ (cl_comment l = comment ∧ cl_user l = user)) (comment_likes st))).

Definition CommentLike_count (comment : Z) (st : State) : Z :=
  Z.of_nat (length (filter (λ l, cl_comment l = comment) (comment_likes st))).

(** The check constraint [karmaevent_exactly_one_target]. *)
Definition karmaevent_exactly_one_target (e : KarmaEvent) : bool :=
  match ke_post e, ke_comment e with
  | Some _, None => true
  | None, Some _ => true
  | _, _ => false
  end.

(** [KarmaEvent.objects.create(...)]: the row is appended unless the
    check constraint rejects it. *)
Definition KarmaEvent_create (e : KarmaEvent) (st : State) : Result State :=
  if karmaevent_exactly_one_target e
  then Ok (set_karma_events st (karma_events st ++ [e]))
  else IntegrityError.

End Models.

Export Models.

(** ** views.py: the like toggles *)

Module Views.

(** [@api_view(['POST', 'DELETE'])] *)
Inductive Method := POST | DELETE.

(** [Response({'liked': liked, 'like_count': like_count})] *)
Record LikeResponse := mkLikeResponse {
  liked : bool;
  like_count : Z;
}.

(** [post_like(request, post_id)] with [request.user = user], at clock
    reading [now].  An error result leaves the database as it was: the
    404 is raised before any write and an exception leaving
    [transaction.atomic()] rolls the block back.  In the [POST] branch
    the [except IntegrityError] clause spans both [create] calls; the
    second one is never refused for the rows built here, which pass
    the check constraint. *)
Definition post_like (now : Z) (method : Method) (user : Z) (pid : Z) (st : State)
  : Result (State * LikeResponse) :=
  post ← get_object_or_404 post_id (posts st) pid;
  '(st', liked) ←
    match method with
    | POST =>
        match PostLike_create now (post_id post) user st with
        | Ok st1 =>
            match KarmaEvent_create
                    (mkKarmaEvent (post_author post) user "post_like" 5
                       (Some (post_id post)) None now) st1 with
            | Ok st2 => Ok (st2, true)
            | _ => Ok (st1, true)
            end
        | _ => Ok (st, true)
        end
    | DELETE =>
        let '(deleted, st1) := PostLike_delete (post_id post) user st in
        st2 ←
          (if bool_decide (deleted ≠ 0)
           then KarmaEvent_create
                  (mkKarmaEvent (post_author post) user "post_unlike" (-5)
                     (Some (post_id post)) None now) st1
           else Ok st1);
        Ok (st2, false)
    end;
  Ok (st', mkLikeResponse liked (PostLike_count (post_id post) st')).

(** [comment_like(request, comment_id)] *)
Definition comment_like (now : Z) (method : Method) (user : Z) (cid : Z) (st : State)
  : Result (State * LikeResponse) :=
  comment ← get_object_or_404 comment_id (comments st) cid;
  '(st', liked) ←
    match method with
    | POST =>
        match CommentLike_create now (comment_id comment) user st with
        | Ok st1 =>
            match KarmaEvent_create
                    (mkKarmaEvent (comment_author comment) user "comment_like" 1
                       None (Some (comment_id comment)) now) st1 with
            | Ok st2 => Ok (st2, true)
            | _ => Ok (st1, true)
            end
        | _ => Ok (st, true)
        end
    | DELETE =>
        let '(deleted, st1) := CommentLike_delete (comment_id comment) user st in
        st2 ←
          (if bool_decide (deleted ≠ 0)
           then KarmaEvent_create
                  (mkKarmaEvent (comment_author comment) user "comment_unlike" (-1)
                     None (Some (comment_id comment)) now) st1
           else Ok st1);
        Ok (st2, false)
    end;
  Ok (st', mkLikeResponse liked (CommentLike_count (comment_id comment) st')).

(** urls.py routes [posts/<id>/like/] to [post_like] and
    [comments/<id>/like/] to [comment_like]; the two kinds of target
    are told apart by the route. *)
Inductive TargetKind := PostTarget | CommentTarget.

Definition toggle_like (kind : TargetKind) : Z → Method → Z → Z → State
  → Result (State * LikeResponse) :=
  match kind with
  | PostTarget => post_like
  | CommentTarget => comment_like
  end.

End Views.

Export Views.

(** ** views.py: the leaderboard *)

Module Leaderboard.

(** [timedelta(hours=24)], in microseconds. *)
Definition hours_24 : Z := 24 * 3600 * 1000000.

(** SQL [SUM]: [NULL] over no rows. *)
Definition Sum (ds : list Z) : option Z :=
  match ds with
  | [] => None
  | _ :: _ => Some (foldr Z.add 0 ds)
  end.

(** [Coalesce(value, default)] *)
Definition Coalesce (value : option Z) (default : Z) : Z :=
  match value with
  | Some v => v
  | None => default
  end.

(** A row of [.values('user').annotate(karma=...)]. *)
Record Row := mkRow {
  row_user : Z;
  row_karma : Z;
}.

(** [karma] descending: [r1] may come before [r2]. *)
Definition karma_desc (r1 r2 : Row) : Prop := row_karma r2 ≤ row_karma r1.

(** [.order_by('-karma')].  The query names no second key, so the
    order of rows of equal karma is the database's choice; what every
    backend guarantees is a rearrangement of the rows that is sorted
    on the key. *)
Class Backend := {
  order_by_karma_desc : list Row → list Row;
  order_by_karma_desc_Sorted : ∀ rows, Sorted karma_desc (order_by_karma_desc rows);
  order_by_karma_desc_Permutation : ∀ rows, order_by_karma_desc rows ≡ₚ rows;
}.

(** [KarmaEvent.objects.filter(created_at__gte=since)] *)
Definition filter_created_at_gte (since : Z) (table : list KarmaEvent) : list KarmaEvent :=
  filter (λ e, since ≤ ke_created_at e) table.

(** [.values('user').annotate(karma=Coalesce(Sum('delta'), 0))]: one
    row per distinct beneficiary among the events. *)
Definition values_user_annotate_karma (events : list KarmaEvent) : list Row :=
  (λ u, mkRow u (Coalesce (Sum (ke_delta <$> filter (λ e, ke_user e = u) events)) 0))
    <$> remove_dups (ke_user <$> events).

(** [User.objects.in_bulk(ids)]: a dict from id to user. *)
Definition in_bulk (ids : list Z) (table : list User) : gmap Z User :=
  list_to_map ((λ u, (user_id u, u)) <$> filter (λ u, user_id u ∈ ids) table).

(** An element of the payload:
    [{'user': {'id': ..., 'username': ...}, 'karma': ...}]. *)
Record Entry := mkEntry {
  entry_user_id : Z;
  entry_username : string;
  entry_karma : Z;
}.

Section View.
Context `{Backend}.

(** The sliced queryset [rows]. *)
Definition leaderboard_rows (now : Z) (st : State) : list Row :=
  let since := now - hours_24 in
  take 5 (order_by_karma_desc
            (values_user_annotate_karma
               (filter_created_at_gte since (karma_events st)))).

(** [leaderboard(request)] with [timezone.now() = now]. *)
Definition leaderboard (now : Z) (st : State) : list Entry :=
  let rows := leaderboard_rows now st in
  let users := in_bulk (row_user <$> rows) (users st) in
  omap (λ r,
          match users !! row_user r with
          | Some u => Some (mkEntry (user_id u) (username u) (row_karma r))
          | None => None
          end) rows.

End View.

(** Two backends.  Both sort with a merge sort on the key alone; the
    second reads its input from the other end, as a database that
    scans the groups in the opposite order would. *)
Global Instance karma_desc_dec : RelDecision karma_desc.
Proof. intros r1 r2. unfold karma_desc. apply _. Defined.

Global Instance karma_desc_total : Total karma_desc.
Proof. intros r1 r2. unfold karma_desc. lia. Qed.

Global Instance karma_desc_trans : Transitive karma_desc.
Proof. intros r1 r2 r3. unfold karma_desc. lia. Qed.

Definition forward_backend : Backend :=
  {| order_by_karma_desc := merge_sort karma_desc;
     order_by_karma_desc_Sorted := Sorted_merge_sort karma_desc;
     order_by_karma_desc_Permutation := merge_sort_Permutation karma_desc |}.

Lemma backward_Permutation (rows : list Row) :
  merge_sort karma_desc (reverse rows) ≡ₚ rows.
Proof. by rewrite merge_sort_Permutation, reverse_Permutation. Qed.

Definition backward_backend : Backend :=
  {| order_by_karma_desc := λ rows, merge_sort karma_desc (reverse rows);
     order_by_karma_desc_Sorted := λ rows, Sorted_merge_sort karma_desc (reverse rows);
     order_by_karma_desc_Permutation := backward_Permutation |}.

End Leaderboard.

Export Leaderboard.

(** ** views.py: the comment tree *)

Module CommentTree.

(** A comment as the queryset of [build_comment_tree] yields it:
    [select_related('author')] brings the author's name and the two
    [annotate] calls always set [like_count] and [liked_by_me], so
    the [getattr] defaults of [_comment_to_dict] are never used. *)
Record AnnotatedComment := mkAnnotatedComment {
  c_id : Z;
  c_parent_id : option Z;
  c_body : string;
  c_author_id : Z;
  c_author_username : string;
  c_created_at : Z;
  c_like_count : Z;
  c_liked_by_me : bool;
}.

(** The dict [_comment_to_dict] returns; the nested author dict is
    flattened into two fields. *)
Inductive CommentDict := mkCommentDict {
  d_id : Z;
  d_body : string;
  d_author_id : Z;
  d_author_username : string;
  d_created_at : Z;
  d_like_count : Z;
  d_liked_by_me : bool;
  d_children : list CommentDict;
}.

(** The dict literal of [_comment_to_dict] around given children. *)
Definition dict_of (c : AnnotatedComment) (children : list CommentDict) : CommentDict :=
  mkCommentDict (c_id c) (c_body c) (c_author_id c) (c_author_username c)
    (c_created_at c) (c_like_count c) (c_liked_by_me c) children.

(** [_comment_to_dict(c, by_parent)].  The recursion follows the
    children found in [by_parent]; [fuel] bounds its depth and [None]
    stands for a call that does not finish within it. *)
Fixpoint _comment_to_dict (fuel : nat) (c : AnnotatedComment)
    (by_parent : gmap Z (list AnnotatedComment)) : option CommentDict :=
  match fuel with
  | O => None
  | S fuel' =>
      children ← mapM (λ child, _comment_to_dict fuel' child by_parent)
                      (default [] (by_parent !! c_id c));
      Some (dict_of c children)
  end.

(** One turn of the loop [for c in comments] over [(roots, by_parent)];
    [setdefault(c.parent_id, []).append(c)] extends the list stored
    under the parent id, starting it when the key is new. *)
Definition collect (acc : list AnnotatedComment * gmap Z (list AnnotatedComment))
    (c : AnnotatedComment) : list AnnotatedComment * gmap Z (list AnnotatedComment) :=
  let '(roots, by_parent) := acc in
  match c_parent_id c with
  | None => (roots ++ [c], by_parent)
  | Some parent_id =>
      (roots, <[parent_id := default [] (by_parent !! parent_id) ++ [c]]> by_parent)
  end.

(** [build_comment_tree(post, user)] from the evaluated queryset
    [comments] on: the loop and the final comprehension. *)
Definition build_comment_tree (fuel : nat) (comments : list AnnotatedComment)
  : option (list CommentDict) :=
  let '(roots, by_parent) := foldl collect ([], ∅) comments in
  mapM (λ c, _comment_to_dict fuel c by_parent) roots.

(** All ids that occur in a dict, the node first. *)
Fixpoint dict_ids (d : CommentDict) : list Z :=
  d_id d :: concat (List.map dict_ids (d_children d)).

Definition forest_ids (forest : list CommentDict) : list Z :=
  concat (List.map dict_ids forest).

(** The direct replies to the comment with id [p], in input order. *)
Definition replies_of (comments : list AnnotatedComment) (p : Z) : list AnnotatedComment :=
  filter (λ c, c_parent_id c = Some p) comments.

(** The comments without a parent, in input order. *)
Definition top_level (comments : list AnnotatedComment) : list AnnotatedComment :=
  filter (λ c, c_parent_id c = None) comments.

(** [tree_for comments c d]: [d] is the dict of [c], its children are
    the dicts of exactly the direct replies to [c], in input order,
    and so on below. *)
Inductive tree_for (comments : list AnnotatedComment)
  : AnnotatedComment → CommentDict → Prop :=
  | tree_for_node c children :
      Forall2 (tree_for comments) (replies_of comments (c_id c)) children →
      tree_for comments c (dict_of c children).

(** Every sibling group of a dict is in ascending order of creation. *)
Inductive chronological : CommentDict → Prop :=
  | chronological_node d :
      StronglySorted Z.le (d_created_at <$> d_children d) →
      Forall chronological (d_children d) →
      chronological d.

(** [level comments c k]: following parent ids from [c] inside the
    list reaches, after [k] steps, a comment without a parent. *)
Inductive level (comments : list AnnotatedComment) : AnnotatedComment → nat → Prop :=
  | level_root c :
      c ∈ comments → c_parent_id c = None → level comments c 0
  | level_reply c p k :
      c ∈ comments → c_parent_id c = Some (c_id p) → level comments p k →
      level comments c (S k).

(** A comment whose parent id is set but names no comment of the list. *)
Definition orphan (comments : list AnnotatedComment) (c : AnnotatedComment) : Prop :=
  c ∈ comments ∧ ∃ p, c_parent_id c = Some p ∧ p ∉ c_id <$> comments.

(** [under comments o c]: [c] is [o] or a reply, at any depth, to [o]. *)
Inductive under (comments : list AnnotatedComment) (o : AnnotatedComment)
  : AnnotatedComment → Prop :=
  | under_self : under comments o o
  | under_reply c p :
      c ∈ comments → c_parent_id c = Some (c_id p) → under comments o p →
      under comments o c.

End CommentTree.

Export CommentTree.

(** ** views.py and auth.py: creating and reading posts and comments *)

Module MoreViews.

Definition set_users (st : State) (t : list User) : State :=
  mkState t (posts st) (comments st) (post_likes st) (comment_likes st) (karma_events st).

Definition set_posts (st : State) (t : list Post) : State :=
  mkState (users st) t (comments st) (post_likes st) (comment_likes st) (karma_events st).

Definition set_comments (st : State) (t : list Comment) : State :=
  mkState (users st) (posts st) t (post_likes st) (comment_likes st) (karma_events st).

(** [get_object_or_404(Model, **lookups)] with any lookups. *)
Definition get_object_or_404_by {A} (P : A → Prop) `{!∀ row, Decision (P row)}
    (table : list A) : Result A :=
  match List.find (λ row, bool_decide (P row)) table with
  | Some row => Ok row
  | None => Http404
  end.

(** [.order_by(key)] on a queryset: as for the leaderboard, a
    rearrangement of the rows that is sorted on the key, the order of
    rows of equal key being the database's. *)
Class OrderBy {A : Type} (R : relation A) := {
  order_by : list A → list A;
  order_by_Sorted : ∀ rows, Sorted R (order_by rows);
  order_by_Permutation : ∀ rows, order_by rows ≡ₚ rows;
}.

Definition merge_order_by {A} (R : relation A) `{!RelDecision R, !Total R} : OrderBy R :=
  {| order_by := merge_sort R;
     order_by_Sorted := Sorted_merge_sort R;
     order_by_Permutation := merge_sort_Permutation R |}.

(** [select_related('author')]: the join with the user table. *)
Definition select_related_author (table : list User) (author : Z) : option User :=
  List.find (λ u, bool_decide (user_id u = author)) table.

(** *** auth.py *)

(** What [HeaderUserAuthentication.authenticate] ends in: [None],
    [(user, None)] with the state [get_or_create] leaves, or the
    exception [get] raises when several users match. *)
Inductive AuthResult :=
  | Anonymous
  | Authenticated (user : User) (st' : State)
  | MultipleObjectsReturned.

(** [authenticate(self, request)] with
    [request.headers.get('X-User') = x_user]; [new_id] is the id the
    database gives a user it has to create. *)
Definition authenticate (new_id : Z) (x_user : option string) (st : State) : AuthResult :=
  match x_user with
  | None => Anonymous
  | Some name =>
      if bool_decide (name = "") then Anonymous
      else
        match filter (λ u, username u = name) (users st) with
        | [] =>
            let user := mkUser new_id name in
            Authenticated user (set_users st (users st ++ [user]))
        | [user] => Authenticated user st
        | _ :: _ :: _ => MultipleObjectsReturned
        end
  end.

(** *** Posts *)

(** [PostCreateSerializer]: the answer to a created post. *)
Record PostCreated := mkPostCreated {
  pc_id : Z;
  pc_body : string;
  pc_created_at : Z;
}.

(** [PostListCreateView.perform_create]: [serializer.save(author=
    request.user)] with the validated [body]; [new_id] is the id the
    database gives the post. *)
Definition perform_create (now new_id : Z) (user : Z) (body : string) (st : State)
  : State * PostCreated :=
  (set_posts st (posts st ++ [mkPost new_id user body now]),
   mkPostCreated new_id body now).

(** [PostListSerializer] over a row of
    [PostListCreateView.get_queryset]. *)
Record PostListItem := mkPostListItem {
  pi_id : Z;
  pi_body : string;
  pi_author_id : Z;
  pi_author_username : string;
  pi_created_at : Z;
  pi_like_count : Z;
  pi_comment_count : Z;
  pi_liked_by_me : bool;
}.

(** [Meta.ordering = ['-created_at']] of [Post]. *)
Definition newest_first (a b : PostListItem) : Prop := pi_created_at b ≤ pi_created_at a.

Global Instance newest_first_dec : RelDecision newest_first.
Proof. intros a b. unfold newest_first. apply _. Defined.

Global Instance newest_first_total : Total newest_first.
Proof. intros a b. unfold newest_first. lia. Qed.

(** One row of [PostListCreateView.get_queryset] for the viewer
    [user]; a post whose author is no row of the user table is lost in
    the join. *)
Definition annotate_post (user : Z) (st : State) (p : Post) : option PostListItem :=
  author ← select_related_author (users st) (post_author p);
  Some (mkPostListItem (post_id p) (post_body p) (post_author p) (username author)
          (post_created_at p)
          (PostLike_count (post_id p) st)
          (Z.of_nat (length (filter (λ c, comment_post c = post_id p) (comments st))))
          (bool_decide (PostLike_filter (post_id p) user (post_likes st) ≠ []))).

(** The queryset [PostListCreateView] serialises on [GET]. *)
Definition post_list `{!OrderBy newest_first} (user : Z) (st : State) : list PostListItem :=
  order_by (omap (annotate_post user st) (posts st)).

(** *** Comments *)

(** [create_comment(request, post_id)] with [request.user = user] and
    [serializer.validated_data] holding [body] and [parent_id];
    [new_id] is the id the database gives the comment. *)
Definition create_comment (now new_id : Z) (user : User) (pid : Z)
    (body : string) (parent_id : option Z) (st : State) : Result (State * CommentDict) :=
  post ← get_object_or_404 post_id (posts st) pid;
  parent ←
    match parent_id with
    | Some parent_id =>
        c ← get_object_or_404_by
               (λ c, comment_id c = parent_id ∧ comment_post c = post_id post)
               (comments st);
        Ok (Some c)
    | None => Ok None
    end;
  let comment :=
    mkComment new_id (post_id post) (user_id user) (comment_id <$> parent) body now in
  Ok (set_comments st (comments st ++ [comment]),
      mkCommentDict (comment_id comment) (comment_body comment)
        (comment_author comment) (username user) (comment_created_at comment)
        0 false []).

(** [order_by('created_at')] *)
Definition created_at_asc (a b : AnnotatedComment) : Prop := c_created_at a ≤ c_created_at b.

Global Instance created_at_asc_dec : RelDecision created_at_asc.
Proof. intros a b. unfold created_at_asc. apply _. Defined.

Global Instance created_at_asc_total : Total created_at_asc.
Proof. intros a b. unfold created_at_asc. lia. Qed.

(** One row of the queryset of [build_comment_tree] for the viewer
    [user]. *)
Definition annotate_comment (user : Z) (st : State) (c : Comment) : option AnnotatedComment :=
  author ← select_related_author (users st) (comment_author c);
  Some (mkAnnotatedComment (comment_id c) (comment_parent c) (comment_body c)
          (comment_author c) (username author) (comment_created_at c)
          (CommentLike_count (comment_id c) st)
          (bool_decide (CommentLike_filter (comment_id c) user (comment_likes st) ≠ []))).

(** The queryset [comments] of [build_comment_tree(post, user)]. *)
Definition comments_queryset `{!OrderBy created_at_asc} (post : Z) (user : Z) (st : State)
  : list AnnotatedComment :=
  order_by (omap (annotate_comment user st)
              (filter (λ c, comment_post c = post) (comments st))).

(** [build_comment_tree(post, user)] as a whole: the queryset, then
    the loop and the comprehension. *)
Definition build_comment_tree_of_post `{!OrderBy created_at_asc} (fuel : nat)
    (post : Z) (user : Z) (st : State) : option (list CommentDict) :=
  build_comment_tree fuel (comments_queryset post user st).

(** [PostDetailSerializer] over the post and its comment forest. *)
Record PostDetail := mkPostDetail {
  pd_id : Z;
  pd_body : string;
  pd_author_id : Z;
  pd_author_username : string;
  pd_created_at : Z;
  pd_like_count : Z;
  pd_liked_by_me : bool;
  pd_comments : list CommentDict;
}.

(** [PostDetailView.retrieve] for the viewer [user]: [get_object]
    looks the post up in the annotated queryset, then the forest is
    built.  [Ok None] stands for a forest that is not built within
    [fuel]. *)
Definition retrieve `{!OrderBy created_at_asc} (fuel : nat) (user : Z) (pk : Z) (st : State)
  : Result (option PostDetail) :=
  post ← get_object_or_404_by
            (λ p, post_id p = pk ∧ is_Some (select_related_author (users st) (post_author p)))
            (posts st);
  Ok (author ← select_related_author (users st) (post_author post);
      comments ← build_comment_tree_of_post fuel (post_id post) user st;
      Some (mkPostDetail (post_id post) (post_body post) (post_author post)
              (username author) (post_created_at post)
              (PostLike_count (post_id post) st)
              (bool_decide (PostLike_filter (post_id post) user (post_likes st) ≠ []))
              comments)).

(** All dicts of a forest, at every depth. *)
Fixpoint dict_nodes (d : CommentDict) : list CommentDict :=
  d :: concat (List.map dict_nodes (d_children d)).

Definition forest_nodes (forest : list CommentDict) : list CommentDict :=
  concat (List.map dict_nodes forest).

End MoreViews.

Export MoreViews.

(** ** Observations on the comment and user tables *)

Module ThreadSpec.

(** Comment ids are distinct, and the parent of every comment is an
    earlier row of the table, on the same post. *)
Definition thread_integrity (table : list Comment) : Prop :=
  NoDup (comment_id <$> table)
  ∧ ∀ i c p, table !! i = Some c → comment_parent c = Some p →
      ∃ j q, (j < i)%nat ∧ table !! j = Some q
             ∧ comment_id q = p ∧ comment_post q = comment_post c.

(** Referential integrity of [Post.author]. *)
Definition post_authors_resolve (st : State) : Prop :=
  Forall (λ p, Exists (λ u, user_id u = post_author p) (users st)) (posts st).

(** Referential integrity of [Comment.author]. *)
Definition comment_authors_resolve (st : State) : Prop :=
  Forall (λ c, Exists (λ u, user_id u = comment_author c) (users st)) (comments st).

End ThreadSpec.

Export ThreadSpec.

(** ** Observations used to state the properties of the toggles *)

Module ToggleSpec.

(** Author of the target a toggle is aimed at ([post.author],
    [comment.author]); [Http404] when the target does not exist. *)
Definition target_author (kind : TargetKind) (id : Z) (st : State) : Result Z :=
  match kind with
  | PostTarget => p ← get_object_or_404 post_id (posts st) id; Ok (post_author p)
  | CommentTarget => c ← get_object_or_404 comment_id (comments st) id; Ok (comment_author c)
  end.

(** The users of the like relations of a target, one entry per
    relation, in storage order. *)
Definition likers (kind : TargetKind) (id : Z) (st : State) : list Z :=
  match kind with
  | PostTarget => pl_user <$> filter (λ l, pl_post l = id) (post_likes st)
  | CommentTarget => cl_user <$> filter (λ l, cl_comment l = id) (comment_likes st)
  end.

(** Number of like relations of a target. *)
Definition relation_count (kind : TargetKind) (id : Z) (st : State) : Z :=
  Z.of_nat (length (likers kind id st)).

(** Number of like relations of one (target, user) pair. *)
Definition pair_count (kind : TargetKind) (id user : Z) (st : State) : nat :=
  length (filter (λ u, u = user) (likers kind id st)).

(** The policy constants as the specification lists them. *)
Definition policy_delta (kind : TargetKind) (method : Method) : Z :=
  match kind, method with
  | PostTarget, POST => 5
  | PostTarget, DELETE => -5
  | CommentTarget, POST => 1
  | CommentTarget, DELETE => -1
  end.

Definition policy_event_type (kind : TargetKind) (method : Method) : string :=
  match kind, method with
  | PostTarget, POST => "post_like"
  | PostTarget, DELETE => "post_unlike"
  | CommentTarget, POST => "comment_like"
  | CommentTarget, DELETE => "comment_unlike"
  end.

(** The ledger row the specification expects for one toggle. *)
Definition policy_event (kind : TargetKind) (method : Method)
    (author user id now : Z) : KarmaEvent :=
  mkKarmaEvent author user (policy_event_type kind method) (policy_delta kind method)
    (match kind with PostTarget => Some id | CommentTarget => None end)
    (match kind with PostTarget => None | CommentTarget => Some id end)
    now.

(** Exactly one of the two target references is set. *)
Definition exactly_one_target (e : KarmaEvent) : Prop :=
  (is_Some (ke_post e) ∧ ke_comment e = None)
  ∨ (ke_post e = None ∧ is_Some (ke_comment e)).

(** Sum of the deltas of a run of ledger rows. *)
Definition delta_sum (es : list KarmaEvent) : Z :=
  foldr (λ e acc, ke_delta e + acc) 0 es.

(** A toggle request as it reaches the router, and the sequential
    execution of a list of requests; a request that fails changes
    nothing. *)
Record Request := mkRequest {
  req_kind : TargetKind;
  req_now : Z;
  req_method : Method;
  req_user : Z;
  req_target : Z;
}.

Definition step (st : State) (r : Request) : State :=
  match toggle_like (req_kind r) (req_now r) (req_method r) (req_user r) (req_target r) st with
  | Ok (st', _) => st'
  | _ => st
  end.

Definition run (reqs : list Request) (st : State) : State := foldl step st reqs.

End ToggleSpec.

Export ToggleSpec.

(** ** Observations used to state the properties of the leaderboard *)

Module LeaderboardSpec.

(** The event lies in the trailing 24 hours of [now]. *)
Definition in_window (now : Z) (e : KarmaEvent) : Prop :=
  now - hours_24 ≤ ke_created_at e.

Global Instance in_window_dec now e : Decision (in_window now e).
Proof. unfold in_window. apply _. Defined.

(** The events of the window, in storage order. *)
Definition window (now : Z) (st : State) : list KarmaEvent :=
  filter (in_window now) (karma_events st).

(** The beneficiaries of the window events, one entry per event. *)
Definition window_users (now : Z) (st : State) : list Z :=
  ke_user <$> window now st.

(** Summed karma of a user over the window. *)
Definition window_karma (now : Z) (st : State) (u : Z) : Z :=
  delta_sum (filter (λ e, ke_user e = u) (window now st)).

(** Descending order on karma values. *)
Definition desc (a b : Z) : Prop := b ≤ a.

(** Referential integrity of [KarmaEvent.user]: every beneficiary in
    the ledger is a row of the user table. *)
Definition ledger_users_resolve (st : State) : Prop :=
  Forall (λ e, Exists (λ u, user_id u = ke_user e) (users st)) (karma_events st).

End LeaderboardSpec.

Export LeaderboardSpec.

(** ** Observations on the like tables and the ledger as a whole *)

Module RegistrySpec.

Global Instance Result_eq_dec {A} `{EqDecision A} : EqDecision (Result A).
Proof. solve_decision. Defined.

Global Instance TargetKind_eq_dec : EqDecision TargetKind.
Proof. solve_decision. Defined.

Global Instance Method_eq_dec : EqDecision Method.
Proof. solve_decision. Defined.

(** The (target id, user id) pairs of the like rows of one kind, in
    storage order: the columns of [uniq_post_like] and
    [uniq_comment_like]. *)
Definition like_pairs (kind : TargetKind) (st : State) : list (Z * Z) :=
  match kind with
  | PostTarget => (λ l, (pl_post l, pl_user l)) <$> post_likes st
  | CommentTarget => (λ l, (cl_comment l, cl_user l)) <$> comment_likes st
  end.

(** No two like rows of a kind share target and user. *)
Definition pairs_unique (st : State) : Prop :=
  ∀ kind, NoDup (like_pairs kind st).

(** Sum of all ledger deltas credited to [u]. *)
Definition ledger_karma (st : State) (u : Z) : Z :=
  delta_sum (filter (λ e, ke_user e = u) (karma_events st)).

(** Number of like rows of a kind that stand on targets authored by [u]. *)
Definition standing_likes (kind : TargetKind) (st : State) (u : Z) : nat :=
  length (filter (λ p, target_author kind p.1 st = Ok u) (like_pairs kind st)).

(** What the likes that currently stand on the targets of [u] are
    worth: 5 for each like of a post, 1 for each like of a comment. *)
Definition standing_karma (st : State) (u : Z) : Z :=
  5 * Z.of_nat (standing_likes PostTarget st u)
  + 1 * Z.of_nat (standing_likes CommentTarget st u).

End RegistrySpec.

Export RegistrySpec.

(** ** Observations on whole comment lists *)

Module TreeSpec.

(** Every reply stands after the comment it replies to, as in a list
    in creation order. *)
Definition parents_first (comments : list AnnotatedComment) : Prop :=
  ∀ i c p, comments !! i = Some c → c_parent_id c = Some p →
    ∃ j q, (j < i)%nat ∧ comments !! j = Some q ∧ c_id q = p.

End TreeSpec.

Export TreeSpec.

(** ** Sample data *)

Module Sample.

Definition alice : User := mkUser 1 "alice".
Definition bob : User := mkUser 2 "bob".

(** One post by alice, one comment on it by bob, nothing liked yet. *)
Definition fresh_state : State :=
  mkState [alice; bob]
    [mkPost 10 1 "hello" 1000]
    [mkComment 100 10 2 None "hi" 2000]
    [] [] [].

(** The same tables after bob liked the post at time 3000. *)
Definition liked_state : State :=
  mkState [alice; bob]
    [mkPost 10 1 "hello" 1000]
    [mkComment 100 10 2 None "hi" 2000]
    [mkPostLike 10 2 3000] []
    [mkKarmaEvent 1 2 "post_like" 5 (Some 10) None 3000].

(** The thread of the specification's example: A and B at top level,
    C a reply to A, D a reply to C; created in that order. *)
Definition comment_A := mkAnnotatedComment 1 None "A" 1 "alice" 1 0 false.
Definition comment_B := mkAnnotatedComment 2 None "B" 2 "bob" 2 0 false.
Definition comment_C := mkAnnotatedComment 3 (Some 1) "C" 2 "bob" 3 0 false.
Definition comment_D := mkAnnotatedComment 4 (Some 3) "D" 1 "alice" 4 0 false.

Definition thread : list AnnotatedComment :=
  [comment_A; comment_B; comment_C; comment_D].

Definition thread_forest : list CommentDict :=
  [dict_of comment_A [dict_of comment_C [dict_of comment_D []]];
   dict_of comment_B []].

(** A thread with a reply (id 2) to a comment that is not in the list,
    a reply (id 3) to that reply, and two comments (5, 6) that name
    each other as parent. *)
Definition broken_thread : list AnnotatedComment :=
  [mkAnnotatedComment 1 None "root" 1 "alice" 1 0 false;
   mkAnnotatedComment 2 (Some 9) "lost" 2 "bob" 2 0 false;
   mkAnnotatedComment 3 (Some 2) "below lost" 1 "alice" 3 0 false;
   mkAnnotatedComment 4 (Some 1) "reply" 2 "bob" 4 0 false;
   mkAnnotatedComment 5 (Some 6) "loop" 1 "alice" 5 0 false;
   mkAnnotatedComment 6 (Some 5) "loop" 2 "bob" 6 0 false].

(** Ledger rows for a liked post and a liked comment. *)
Definition post_like_event (author actor post now : Z) : KarmaEvent :=
  mkKarmaEvent author actor "post_like" 5 (Some post) None now.

Definition comment_like_event (author actor comment now : Z) : KarmaEvent :=
  mkKarmaEvent author actor "comment_like" 1 None (Some comment) now.

Definition seven_users : list User :=
  [mkUser 1 "ann"; mkUser 2 "ben"; mkUser 3 "cat"; mkUser 4 "dan";
   mkUser 5 "eve"; mkUser 6 "fay"; mkUser 7 "gus"].

(** Clock reading of the sample requests: 30 hours after time 0. *)
Definition noon : Z := 30 * 3600 * 1000000.

(** Seven users with positive karma in the 24 hours before [noon];
    the first row, for user 4, is 25 hours old. *)
Definition seven_state : State :=
  mkState seven_users [] [] [] []
    [post_like_event 4 1 40 (noon - 25 * 3600 * 1000000);
     post_like_event 1 2 10 (noon - hours_24);
     comment_like_event 1 3 11 (noon - 3600 * 1000000);
     post_like_event 2 1 20 (noon - 7000);
     post_like_event 3 1 30 (noon - 6000);
     post_like_event 3 2 30 (noon - 5000);
     comment_like_event 4 1 41 (noon - 4000);
     comment_like_event 5 1 51 (noon - 3000);
     comment_like_event 5 2 51 (noon - 2000);
     post_like_event 6 1 60 (noon - 1000);
     comment_like_event 7 1 71 noon].

(** A ledger row whose beneficiary, 8, is no row of the user table:
    a state the foreign key of [KarmaEvent.user] rules out. *)
Definition dangling_state : State :=
  mkState seven_users [] [] [] []
    [post_like_event 8 1 80 (noon - 2000);
     comment_like_event 1 2 11 (noon - 1000)].

(** Users 2 and 1, in this storage order, with karma 5 each. *)
Definition tie_state : State :=
  mkState seven_users [] [] [] []
    [post_like_event 2 1 20 (noon - 2000);
     post_like_event 1 2 10 (noon - 1000)].

(** Six users with karma 5 each. *)
Definition six_tie_state : State :=
  mkState seven_users [] [] [] []
    [post_like_event 1 2 10 (noon - 6000);
     post_like_event 2 1 20 (noon - 5000);
     post_like_event 3 1 30 (noon - 4000);
     post_like_event 4 1 40 (noon - 3000);
     post_like_event 5 1 50 (noon - 2000);
     post_like_event 6 1 60 (noon - 1000)].

End Sample.

(** ** More sample data *)

Module MoreSamples.

(** Bob likes alice's post and takes the like back, within the day
    before [Sample.noon]. *)
Definition round_trip_state : State :=
  run [mkRequest PostTarget (Sample.noon - 2000) POST 2 10;
       mkRequest PostTarget (Sample.noon - 1000) DELETE 2 10]
    Sample.fresh_state.

(** Two posts and five comments: on post 10 the thread 100, 101, 102
    and the later top-level comment 103, created at the same time as
    102; on post 20 the comment 200.  Bob likes post 10 and comment
    101. *)
Definition discussion_state : State :=
  mkState [Sample.alice; Sample.bob]
    [mkPost 10 1 "hello" 1000; mkPost 20 2 "world" 1500]
    [mkComment 100 10 2 None "hi" 2000;
     mkComment 101 10 1 (Some 100) "hi bob" 2100;
     mkComment 200 20 1 None "first" 2200;
     mkComment 102 10 2 (Some 101) "how are you" 2300;
     mkComment 103 10 1 None "anyone else" 2300]
    [mkPostLike 10 2 3000]
    [mkCommentLike 101 2 2500]
    [Sample.comment_like_event 1 2 101 2500; Sample.post_like_event 1 2 10 3000].

End MoreSamples.

(** ** Sample runs of the views *)

Section SampleRuns.

Import Sample.

Example like_reaches_liked_state :
  post_like 3000 POST 2 10 fresh_state
  = Ok (liked_state, mkLikeResponse true 1).
Proof. reflexivity. Qed.

Example like_missing_post : post_like 3000 POST 2 11 fresh_state = Http404.
Proof. reflexivity. Qed.

Example comment_like_then_unlike :
  ('(st1, _) ← comment_like 4000 POST 1 100 fresh_state;
   '(st2, r) ← comment_like 5000 DELETE 1 100 st1;
   Ok (delta_sum (karma_events st2), r))
  = Ok (0, mkLikeResponse false 0).
Proof. reflexivity. Qed.

Example leaderboard_seven :
  @leaderboard forward_backend noon seven_state
  = [mkEntry 3 "cat" 10; mkEntry 1 "ann" 6; mkEntry 6 "fay" 5;
     mkEntry 2 "ben" 5; mkEntry 5 "eve" 2].
Proof. by vm_compute. Qed.

(** [if not u: continue] drops the row of a user that does not resolve. *)
Example leaderboard_skips_unresolved :
  @leaderboard forward_backend noon dangling_state = [mkEntry 1 "ann" 1].
Proof. by vm_compute. Qed.

Example tree_of_thread : build_comment_tree 4 thread = Some thread_forest.
Proof. by vm_compute. Qed.

Example tree_of_broken_thread :
  forest_ids <$> build_comment_tree 6 broken_thread = Some [1; 4].
Proof. by vm_compute. Qed.

(** Two comments with the same id, which a primary key excludes: the
    second is its own reply and the recursion never comes back. *)
Example tree_needs_distinct_ids :
  build_comment_tree 50
    [mkAnnotatedComment 1 None "a" 1 "alice" 1 0 false;
     mkAnnotatedComment 1 (Some 1) "b" 2 "bob" 2 0 false]
  = None.
Proof. by vm_compute. Qed.

End SampleRuns.

(** ** Facts about the tables *)

Section TableFacts.

Lemma get_object_or_404_Ok {A} (pk : A → Z) (table : list A) (id : Z) (row : A) :
  get_object_or_404 pk table id = Ok row → pk row = id ∧ row ∈ table.
Proof.
  unfold get_object_or_404.
  destruct (List.find _ table) as [r|] eqn:Hfind; [|discriminate].
  intros [= ->]. apply find_some in Hfind as [Hin Hpk].
  apply bool_decide_eq_true in Hpk. split; [done|]. by apply list_elem_of_In.
Qed.

Lemma pair_filter_nil {A} (key usr : A → Z) (k u : Z) (table : list A) :
  filter (λ l, key l = k ∧ usr l = u) table = []
  ↔ u ∉ usr <$> filter (λ l, key l = k) table.
Proof.
  induction table as [|x t IH]; simpl.
  - split; [intros _; apply not_elem_of_nil | done].
  - rewrite !filter_cons. destruct (decide (key x = k)) as [Hk|Hk].
    + destruct (decide (usr x = u)) as [Hu|Hu].
      * rewrite decide_True by done. rewrite fmap_cons, Hu.
        split; [discriminate | intros H; exfalso; apply H; left].
      * rewrite decide_False by tauto. rewrite fmap_cons, not_elem_of_cons. intuition congruence.
    + rewrite decide_False by tauto. done.
Qed.

Lemma pair_filter_not {A} (key usr : A → Z) (k u : Z) (table : list A) :
  usr <$> filter (λ l, key l = k)
            (filter (λ l, ¬ (key l = k ∧ usr l = u)) table)
  = filter (λ v, v ≠ u) (usr <$> filter (λ l, key l = k) table).
Proof.
  induction table as [|x t IH]; [done|].
  rewrite !filter_cons.
  destruct (decide (key x = k)) as [Hk|Hk]; destruct (decide (usr x = u)) as [Hu|Hu].
  - rewrite decide_False by tauto. rewrite fmap_cons, filter_cons.
    rewrite decide_False by tauto. done.
  - rewrite decide_True by tauto. rewrite filter_cons, decide_True by done.
    rewrite !fmap_cons, filter_cons, decide_True by done. by rewrite IH.
  - rewrite decide_True by tauto. rewrite filter_cons, decide_False by done. done.
  - rewrite decide_True by tauto. rewrite filter_cons, decide_False by done. done.
Qed.

Lemma pair_filter_other {A} (key usr : A → Z) (k k' u : Z) (table : list A) :
  k' ≠ k →
  filter (λ l, key l = k') (filter (λ l, ¬ (key l = k ∧ usr l = u)) table)
  = filter (λ l, key l = k') table.
Proof.
  intros Hne. induction table as [|x t IH]; [done|].
  rewrite !filter_cons.
  destruct (decide (key x = k')) as [Hk|Hk].
  - rewrite decide_True by (intros [? _]; congruence).
    rewrite filter_cons, decide_True by done. by rewrite IH.
  - destruct (decide (¬ (key x = k ∧ usr x = u))); [|done].
    rewrite filter_cons, decide_False by done. done.
Qed.

Lemma filter_ne_id (u : Z) (l : list Z) : u ∉ l → filter (λ v, v ≠ u) l = l.
Proof.
  induction l as [|x l IH]; [done|].
  rewrite not_elem_of_cons. intros [Hx Hl].
  rewrite filter_cons, decide_True by done. by rewrite IH.
Qed.

Lemma filter_ne_not_elem (u : Z) (l : list Z) : u ∉ filter (λ v, v ≠ u) l.
Proof. rewrite list_elem_of_filter. tauto. Qed.

Lemma filter_eq_not_elem (u : Z) (l : list Z) :
  u ∉ l → filter (λ v, v = u) l = [].
Proof.
  induction l as [|x l IH]; [done|].
  rewrite not_elem_of_cons. intros [Hx Hl].
  rewrite filter_cons, decide_False by done. auto.
Qed.

Lemma Forall2_elem_of_r {A B} (P : A → B → Prop) (l : list A) (k : list B) (y : B) :
  Forall2 P l k → y ∈ k → ∃ x, x ∈ l ∧ P x y.
Proof.
  intros HP [i Hi]%list_elem_of_lookup.
  destruct (Forall2_lookup_r _ _ _ _ _ HP Hi) as (x & Hx & Hxy).
  exists x. split; [|done]. apply list_elem_of_lookup. eauto.
Qed.

End TableFacts.

(** ** The four outcomes of a toggle on an existing target *)

Section ToggleOutcomes.

Lemma target_author_Ok_post id st a :
  target_author PostTarget id st = Ok a →
  ∃ p, get_object_or_404 post_id (posts st) id = Ok p
       ∧ post_id p = id ∧ post_author p = a.
Proof.
  simpl. destruct (get_object_or_404 post_id (posts st) id) as [p| |] eqn:Hget;
    simpl; [|discriminate..].
  intros [= <-]. exists p. destruct (get_object_or_404_Ok _ _ _ _ Hget) as [? _]. eauto.
Qed.

Lemma target_author_Ok_comment id st a :
  target_author CommentTarget id st = Ok a →
  ∃ c, get_object_or_404 comment_id (comments st) id = Ok c
       ∧ comment_id c = id ∧ comment_author c = a.
Proof.
  simpl. destruct (get_object_or_404 comment_id (comments st) id) as [c| |] eqn:Hget;
    simpl; [|discriminate..].
  intros [= <-]. exists c. destruct (get_object_or_404_Ok _ _ _ _ Hget) as [? _]. eauto.
Qed.

Lemma relation_count_post id st :
  relation_count PostTarget id st = PostLike_count id st.
Proof. unfold relation_count, PostLike_count. simpl. by rewrite length_fmap. Qed.

Lemma relation_count_comment id st :
  relation_count CommentTarget id st = CommentLike_count id st.
Proof. unfold relation_count, CommentLike_count. simpl. by rewrite length_fmap. Qed.

(** Unfold a toggle on a target known to exist. *)
Ltac open_toggle kind Ha :=
  let p := fresh "p" in
  let Hget := fresh "Hget" in
  let Hid := fresh "Hid" in
  let Hau := fresh "Hau" in
  destruct kind;
  [ apply target_author_Ok_post in Ha as (p & Hget & Hid & Hau)
  | apply target_author_Ok_comment in Ha as (p & Hget & Hid & Hau) ];
  try setoid_rewrite relation_count_post;
  try setoid_rewrite relation_count_comment;
  unfold toggle_like, post_like, comment_like, likers;
  rewrite Hget; simpl; rewrite Hid, Hau.

(** A toggle touches neither the users nor the targets. *)
Definition same_targets (st st' : State) : Prop :=
  users st' = users st ∧ posts st' = posts st ∧ comments st' = comments st.

Lemma same_targets_author st st' kind id :
  same_targets st st' → target_author kind id st' = target_author kind id st.
Proof. intros (_ & Hp & Hc). destruct kind; simpl; by rewrite ?Hp, ?Hc. Qed.

Lemma toggle_like_POST_fresh kind now user id st a :
  target_author kind id st = Ok a →
  user ∉ likers kind id st →
  ∃ st' : State,
    toggle_like kind now POST user id st
      = Ok (st', mkLikeResponse true (relation_count kind id st'))
    ∧ likers kind id st' = likers kind id st ++ [user]
    ∧ karma_events st' = karma_events st ++ [policy_event kind POST a user id now]
    ∧ same_targets st st'.
Proof.
  intros Ha Hfresh. open_toggle kind Ha.
  - unfold PostLike_create, PostLike_filter.
    apply pair_filter_nil in Hfresh. rewrite Hfresh. simpl.
    eexists. split; [reflexivity|]. simpl.
    rewrite filter_app, fmap_app, filter_cons, decide_True by done.
    done.
  - unfold CommentLike_create, CommentLike_filter.
    apply pair_filter_nil in Hfresh. rewrite Hfresh. simpl.
    eexists. split; [reflexivity|]. simpl.
    rewrite filter_app, fmap_app, filter_cons, decide_True by done.
    done.
Qed.

Lemma toggle_like_POST_dup kind now user id st a :
  target_author kind id st = Ok a →
  user ∈ likers kind id st →
  toggle_like kind now POST user id st
    = Ok (st, mkLikeResponse true (relation_count kind id st)).
Proof.
  intros Ha Hdup. open_toggle kind Ha.
  - unfold PostLike_create, PostLike_filter.
    destruct (filter _ (post_likes st)) eqn:Hf; [|done].
    apply pair_filter_nil in Hf. done.
  - unfold CommentLike_create, CommentLike_filter.
    destruct (filter _ (comment_likes st)) eqn:Hf; [|done].
    apply pair_filter_nil in Hf. done.
Qed.

Lemma toggle_like_DELETE_present kind now user id st a :
  target_author kind id st = Ok a →
  user ∈ likers kind id st →
  ∃ st' : State,
    toggle_like kind now DELETE user id st
      = Ok (st', mkLikeResponse false (relation_count kind id st'))
    ∧ likers kind id st' = filter (λ v, v ≠ user) (likers kind id st)
    ∧ karma_events st' = karma_events st ++ [policy_event kind DELETE a user id now]
    ∧ same_targets st st'.
Proof.
  intros Ha Hin. open_toggle kind Ha.
  - unfold PostLike_filter.
    destruct (filter _ (post_likes st)) eqn:Hf.
    { apply pair_filter_nil in Hf. done. }
    rewrite bool_decide_eq_true_2 by (simpl; lia). simpl.
    eexists. split; [reflexivity|]. simpl. by rewrite pair_filter_not.
  - unfold CommentLike_filter.
    destruct (filter _ (comment_likes st)) eqn:Hf.
    { apply pair_filter_nil in Hf. done. }
    rewrite bool_decide_eq_true_2 by (simpl; lia). simpl.
    eexists. split; [reflexivity|]. simpl. by rewrite pair_filter_not.
Qed.

Lemma toggle_like_DELETE_absent kind now user id st a :
  target_author kind id st = Ok a →
  user ∉ likers kind id st →
  ∃ st' : State,
    toggle_like kind now DELETE user id st
      = Ok (st', mkLikeResponse false (relation_count kind id st'))
    ∧ likers kind id st' = likers kind id st
    ∧ karma_events st' = karma_events st
    ∧ same_targets st st'.
Proof.
  intros Ha Hout. open_toggle kind Ha.
  - unfold PostLike_filter.
    pose proof Hout as Hf. apply pair_filter_nil in Hf. rewrite Hf. simpl.
    eexists. split; [reflexivity|]. simpl.
    rewrite pair_filter_not. by rewrite filter_ne_id.
  - unfold CommentLike_filter.
    pose proof Hout as Hf. apply pair_filter_nil in Hf. rewrite Hf. simpl.
    eexists. split; [reflexivity|]. simpl.
    rewrite pair_filter_not. by rewrite filter_ne_id.
Qed.

Lemma toggle_like_Ok_target kind now method user id st st' r :
  toggle_like kind now method user id st = Ok (st', r) →
  ∃ a, target_author kind id st = Ok a.
Proof.
  destruct kind; simpl; unfold post_like, comment_like.
  - destruct (get_object_or_404 post_id (posts st) id); simpl; [eauto|discriminate..].
  - destruct (get_object_or_404 comment_id (comments st) id); simpl; [eauto|discriminate..].
Qed.

End ToggleOutcomes.

(** ** Properties of the toggles *)

Section ToggleProperties.

Lemma policy_event_exactly_one kind method a user id now :
  exactly_one_target (policy_event kind method a user id now).
Proof. destruct kind; [left|right]; simpl; eauto. Qed.

(** Every toggle on an existing target succeeds, appends at most the
    row the policy prescribes and answers with the recount. *)
Lemma toggle_like_ledger kind now method user id st a :
  target_author kind id st = Ok a →
  ∃ (st' : State) (r : LikeResponse) (new : list KarmaEvent),
    toggle_like kind now method user id st = Ok (st', r)
    ∧ karma_events st' = karma_events st ++ new
    ∧ (new = [] ∨ new = [policy_event kind method a user id now])
    ∧ like_count r = relation_count kind id st'
    ∧ same_targets st st'.
Proof.
  intros Ha.
  destruct method; destruct (decide (user ∈ likers kind id st)) as [Hin|Hout].
  - exists st, (mkLikeResponse true (relation_count kind id st)), [].
    rewrite (toggle_like_POST_dup _ _ _ _ _ _ Ha Hin), app_nil_r.
    unfold same_targets. eauto 10.
  - destruct (toggle_like_POST_fresh _ now _ _ _ _ Ha Hout) as (st' & -> & _ & Hk & Hs).
    eexists _, _, _. eauto 10.
  - destruct (toggle_like_DELETE_present _ now _ _ _ _ Ha Hin) as (st' & -> & _ & Hk & Hs).
    eexists _, _, _. eauto 10.
  - destruct (toggle_like_DELETE_absent _ now _ _ _ _ Ha Hout) as (st' & -> & _ & Hk & Hs).
    exists st', (mkLikeResponse false (relation_count kind id st')), [].
    rewrite app_nil_r. eauto 10.
Qed.

Lemma step_ledger st r :
  ∃ new, karma_events (step st r) = karma_events st ++ new
         ∧ Forall exactly_one_target new.
Proof.
  unfold step.
  destruct (toggle_like _ _ _ _ _ st) as [[st' resp]| |] eqn:Ht;
    [|exists []; by rewrite app_nil_r..].
  destruct (toggle_like_Ok_target _ _ _ _ _ _ _ _ Ht) as [a Ha].
  destruct (toggle_like_ledger (req_kind r) (req_now r) (req_method r)
              (req_user r) (req_target r) st a Ha)
    as (st'' & r'' & new & Ht' & Hk & Hnew & _).
  rewrite Ht in Ht'. injection Ht' as <- <-.
  exists new. split; [done|].
  destruct Hnew as [-> | ->]; [constructor|].
  constructor; [apply policy_event_exactly_one | constructor].
Qed.

End ToggleProperties.

(** ** The claims about the toggles *)

Section ToggleClaims.

(** C1.  A like request on an existing target whose (target, user)
    relation already exists answers [liked = true] and leaves the
    whole database, hence the ledger, as it was.  Consequently two
    like requests in a row by a user who did not like the target
    before both answer [liked = true], leave exactly one relation for
    the pair, raise the like count by one and append exactly one
    ledger row, whose delta is positive. *)
Theorem C1_duplicate_like_credits_once kind now now' user id st a :
  target_author kind id st = Ok a →
  (user ∈ likers kind id st →
     toggle_like kind now POST user id st
       = Ok (st, mkLikeResponse true (relation_count kind id st)))
  ∧ (user ∉ likers kind id st →
     ∃ st1 r1 st2 r2 e,
       toggle_like kind now POST user id st = Ok (st1, r1)
       ∧ toggle_like kind now' POST user id st1 = Ok (st2, r2)
       ∧ liked r1 = true ∧ liked r2 = true
       ∧ pair_count kind id user st2 = 1%nat
       ∧ like_count r2 = relation_count kind id st + 1
       ∧ karma_events st2 = karma_events st ++ [e]
       ∧ 0 < ke_delta e).
Proof.
  intros Ha. split; intros Hu.
  - by apply toggle_like_POST_dup with a.
  - destruct (toggle_like_POST_fresh kind now user id st a Ha Hu)
      as (st1 & Ht1 & Hl1 & Hk1 & Hs1).
    assert (Ha1 : target_author kind id st1 = Ok a)
      by (by rewrite (same_targets_author st st1)).
    assert (Hin1 : user ∈ likers kind id st1)
      by (rewrite Hl1, elem_of_app, list_elem_of_singleton; by right).
    eexists st1, _, st1, _, _.
    split; [exact Ht1|].
    split; [exact (toggle_like_POST_dup kind now' user id st1 a Ha1 Hin1)|].
    simpl. repeat split.
    + unfold pair_count. rewrite Hl1, filter_app, filter_eq_not_elem by done.
      by rewrite filter_cons, decide_True.
    + unfold relation_count. rewrite Hl1, length_app. simpl. lia.
    + exact Hk1.
    + destruct kind; simpl; lia.
Qed.

Lemma C1_witness :
  toggle_like PostTarget 4000 POST 2 10 Sample.liked_state
    = Ok (Sample.liked_state, mkLikeResponse true 1)
  ∧ ∃ st1 r1 st2 r2 e,
      toggle_like CommentTarget 4000 POST 1 100 Sample.fresh_state = Ok (st1, r1)
      ∧ toggle_like CommentTarget 4001 POST 1 100 st1 = Ok (st2, r2)
      ∧ liked r1 = true ∧ liked r2 = true
      ∧ pair_count CommentTarget 100 1 st2 = 1%nat
      ∧ like_count r2 = relation_count CommentTarget 100 Sample.fresh_state + 1
      ∧ karma_events st2 = karma_events Sample.fresh_state ++ [e]
      ∧ 0 < ke_delta e.
Proof.
  split.
  - apply (C1_duplicate_like_credits_once PostTarget 4000 4001 2 10 Sample.liked_state 1).
    + reflexivity.
    + vm_compute. left.
  - apply (C1_duplicate_like_credits_once CommentTarget 4000 4001 1 100 Sample.fresh_state 2).
    + reflexivity.
    + vm_compute. apply not_elem_of_nil.
Defined.

(** C2.  An unlike request on an existing target answers
    [liked = false].  If a relation of the pair existed, none is left
    and exactly one ledger row with the fixed negative delta of the
    target kind is appended; if none existed, relations and ledger are
    unchanged. *)
Theorem C2_unlike_debits_only_when_removed kind now user id st a :
  target_author kind id st = Ok a →
  ∃ st' r,
    toggle_like kind now DELETE user id st = Ok (st', r)
    ∧ liked r = false
    ∧ (user ∈ likers kind id st →
         (user ∉ likers kind id st')
         ∧ (∃ e, karma_events st' = karma_events st ++ [e]
                 ∧ ke_delta e = policy_delta kind DELETE
                 ∧ ke_delta e < 0))
    ∧ (user ∉ likers kind id st →
         likers kind id st' = likers kind id st
         ∧ karma_events st' = karma_events st).
Proof.
  intros Ha. destruct (decide (user ∈ likers kind id st)) as [Hin|Hout].
  - destruct (toggle_like_DELETE_present kind now user id st a Ha Hin)
      as (st' & Ht & Hl & Hk & _).
    eexists st', _. split; [exact Ht|]. split; [done|]. split; [|done].
    intros _. split.
    + rewrite Hl. apply filter_ne_not_elem.
    + eexists. split; [exact Hk|]. destruct kind; simpl; lia.
  - destruct (toggle_like_DELETE_absent kind now user id st a Ha Hout)
      as (st' & Ht & Hl & Hk & _).
    eexists st', _. split; [exact Ht|]. split; [done|]. split; [done|].
    intros _. done.
Qed.

Lemma C2_witness :
  ∃ st' r,
    toggle_like CommentTarget 4000 DELETE 1 100 Sample.fresh_state = Ok (st', r)
    ∧ liked r = false
    ∧ (1 ∈ likers CommentTarget 100 Sample.fresh_state →
         (1 ∉ likers CommentTarget 100 st')
         ∧ (∃ e, karma_events st' = karma_events Sample.fresh_state ++ [e]
                 ∧ ke_delta e = policy_delta CommentTarget DELETE
                 ∧ ke_delta e < 0))
    ∧ (1 ∉ likers CommentTarget 100 Sample.fresh_state →
         likers CommentTarget 100 st' = likers CommentTarget 100 Sample.fresh_state
         ∧ karma_events st' = karma_events Sample.fresh_state).
Proof.
  apply (C2_unlike_debits_only_when_removed CommentTarget 4000 1 100 Sample.fresh_state 2).
  reflexivity.
Defined.

(** C3.  The ledger rows a toggle appends (at most one) credit the
    author of the target, name the acting user as actor and carry the
    policy delta and event type of the target kind and request:
    +5 [post_like], -5 [post_unlike], +1 [comment_like],
    -1 [comment_unlike]. *)
Theorem C3_appended_event_follows_policy kind now method user id st a :
  target_author kind id st = Ok a →
  ∃ st' r new,
    toggle_like kind now method user id st = Ok (st', r)
    ∧ karma_events st' = karma_events st ++ new
    ∧ (length new ≤ 1)%nat
    ∧ Forall (λ e, ke_user e = a
                   ∧ ke_actor e = user
                   ∧ ke_delta e = policy_delta kind method
                   ∧ ke_event_type e = policy_event_type kind method) new.
Proof.
  intros Ha.
  destruct (toggle_like_ledger kind now method user id st a Ha)
    as (st' & r & new & Ht & Hk & Hnew & _).
  exists st', r, new. split; [done|]. split; [done|].
  destruct Hnew as [-> | ->]; simpl; split; try lia; repeat constructor.
Qed.

Lemma C3_witness :
  ∃ st' r new,
    toggle_like PostTarget 3000 POST 2 10 Sample.fresh_state = Ok (st', r)
    ∧ karma_events st' = karma_events Sample.fresh_state ++ new
    ∧ (length new ≤ 1)%nat
    ∧ Forall (λ e, ke_user e = 1
                   ∧ ke_actor e = 2
                   ∧ ke_delta e = policy_delta PostTarget POST
                   ∧ ke_event_type e = policy_event_type PostTarget POST) new.
Proof.
  apply (C3_appended_event_follows_policy PostTarget 3000 POST 2 10 Sample.fresh_state 1).
  reflexivity.
Defined.

(** C7, as stated, fails: when the user already likes the target the
    like request changes nothing, so the unlike that follows lowers
    the like count from 1 to 0 and the pair of requests nets -5. *)
Lemma C7_counterexample :
  ∃ st1 r1 st2 r2 new,
    toggle_like PostTarget 4000 POST 2 10 Sample.liked_state = Ok (st1, r1)
    ∧ toggle_like PostTarget 5000 DELETE 2 10 st1 = Ok (st2, r2)
    ∧ relation_count PostTarget 10 Sample.liked_state = 1
    ∧ relation_count PostTarget 10 st2 = 0
    ∧ like_count r2 = 0
    ∧ karma_events st2 = karma_events Sample.liked_state ++ new
    ∧ delta_sum new = -5.
Proof.
  eexists _, _, _, _, _.
  split; [reflexivity|]. split; [reflexivity|].
  repeat split; reflexivity.
Qed.

(** C7, amended.  From a state in which the user does not yet like
    the existing target, a like request followed by an unlike request
    of the same user on the same target brings the like relations of
    the target, and so its like count, back to what they were, and the
    two ledger rows the pair appends have deltas summing to zero. *)
Theorem C7_like_unlike_round_trip kind now now' user id st a :
  target_author kind id st = Ok a →
  user ∉ likers kind id st →
  ∃ st1 r1 st2 r2 new,
    toggle_like kind now POST user id st = Ok (st1, r1)
    ∧ toggle_like kind now' DELETE user id st1 = Ok (st2, r2)
    ∧ likers kind id st2 = likers kind id st
    ∧ like_count r2 = relation_count kind id st
    ∧ like_count r1 = relation_count kind id st + 1
    ∧ karma_events st2 = karma_events st ++ new
    ∧ length new = 2%nat
    ∧ delta_sum new = 0.
Proof.
  intros Ha Hu.
  destruct (toggle_like_POST_fresh kind now user id st a Ha Hu)
    as (st1 & Ht1 & Hl1 & Hk1 & Hs1).
  assert (Ha1 : target_author kind id st1 = Ok a)
    by (by rewrite (same_targets_author st st1)).
  assert (Hin1 : user ∈ likers kind id st1)
    by (rewrite Hl1, elem_of_app, list_elem_of_singleton; by right).
  destruct (toggle_like_DELETE_present kind now' user id st1 a Ha1 Hin1)
    as (st2 & Ht2 & Hl2 & Hk2 & _).
  assert (Hback : likers kind id st2 = likers kind id st).
  { rewrite Hl2, Hl1, filter_app, filter_ne_id by done.
    rewrite filter_cons, decide_False by tauto. by rewrite app_nil_r. }
  eexists st1, _, st2, _, _.
  split; [exact Ht1|]. split; [exact Ht2|]. split; [exact Hback|]. simpl.
  split; [unfold relation_count; by rewrite Hback|].
  split; [unfold relation_count; rewrite Hl1, length_app; simpl; lia|].
  split; [rewrite Hk2, Hk1, <- app_assoc; reflexivity|].
  split; [done|]. destruct kind; reflexivity.
Qed.

Lemma C7_witness :
  ∃ st1 r1 st2 r2 new,
    toggle_like PostTarget 3000 POST 2 10 Sample.fresh_state = Ok (st1, r1)
    ∧ toggle_like PostTarget 3500 DELETE 2 10 st1 = Ok (st2, r2)
    ∧ likers PostTarget 10 st2 = likers PostTarget 10 Sample.fresh_state
    ∧ like_count r2 = relation_count PostTarget 10 Sample.fresh_state
    ∧ like_count r1 = relation_count PostTarget 10 Sample.fresh_state + 1
    ∧ karma_events st2 = karma_events Sample.fresh_state ++ new
    ∧ length new = 2%nat
    ∧ delta_sum new = 0.
Proof.
  apply (C7_like_unlike_round_trip PostTarget 3000 3500 2 10 Sample.fresh_state 1).
  - reflexivity.
  - vm_compute. apply not_elem_of_nil.
Defined.

(** C8.  Whatever sequence of toggle requests is run from whatever
    state, every row the run adds to the ledger has exactly one of
    its post and comment references set; a ledger that starts empty
    therefore only ever holds such rows. *)
Theorem C8_ledger_exclusivity (reqs : list Request) (st : State) :
  ∃ new,
    karma_events (run reqs st) = karma_events st ++ new
    ∧ Forall exactly_one_target new
    ∧ (Forall exactly_one_target (karma_events st) →
       Forall exactly_one_target (karma_events (run reqs st))).
Proof.
  revert st. induction reqs as [|r reqs IH]; intros st.
  - exists []. simpl. rewrite app_nil_r. by repeat split.
  - destruct (step_ledger st r) as (new1 & Hk1 & Hn1).
    destruct (IH (step st r)) as (new2 & Hk2 & Hn2 & _).
    assert (Hk : karma_events (run (r :: reqs) st) = karma_events st ++ (new1 ++ new2))
      by (simpl; rewrite Hk2, Hk1; by rewrite app_assoc).
    exists (new1 ++ new2). split; [exact Hk|].
    split; [by apply Forall_app|].
    intros H0. rewrite Hk. apply Forall_app. split; [done|by apply Forall_app].
Qed.

(** C9.  Every toggle on an existing target, the two no-op cases
    included, answers with a [like_count] equal to the number of like
    relations the target has in the state the toggle leaves behind. *)
Theorem C9_like_count_is_recounted kind now method user id st a :
  target_author kind id st = Ok a →
  ∃ st' r,
    toggle_like kind now method user id st = Ok (st', r)
    ∧ like_count r = relation_count kind id st'.
Proof.
  intros Ha.
  destruct (toggle_like_ledger kind now method user id st a Ha)
    as (st' & r & new & Ht & _ & _ & Hc & _).
  by exists st', r.
Qed.

Lemma C9_witness :
  ∃ st' r,
    toggle_like PostTarget 4000 POST 2 10 Sample.liked_state = Ok (st', r)
    ∧ like_count r = relation_count PostTarget 10 st'.
Proof.
  apply (C9_like_count_is_recounted PostTarget 4000 POST 2 10 Sample.liked_state 1).
  reflexivity.
Defined.

End ToggleClaims.

(** ** The leaderboard: grouping, ordering, slicing, payload *)

Section LeaderboardFacts.

Global Instance desc_trans : Transitive desc.
Proof. intros a b c. unfold desc. lia. Qed.

Global Instance desc_antisymm : AntiSymm (=) desc.
Proof. intros a b. unfold desc. lia. Qed.

Lemma Coalesce_Sum (ds : list Z) : Coalesce (Sum ds) 0 = foldr Z.add 0 ds.
Proof. by destruct ds. Qed.

Lemma foldr_add_delta (es : list KarmaEvent) :
  foldr Z.add 0 (ke_delta <$> es) = delta_sum es.
Proof.
  induction es as [|e es IH]; [done|].
  rewrite fmap_cons. cbn [foldr]. by rewrite IH.
Qed.

Lemma filter_created_at_gte_window now st :
  filter_created_at_gte (now - hours_24) (karma_events st) = window now st.
Proof. reflexivity. Qed.

(** The rows before ordering: one per distinct beneficiary of the
    window, each with that user's summed karma. *)
Definition grouped (now : Z) (st : State) : list Row :=
  values_user_annotate_karma (window now st).

Lemma grouped_users now st :
  row_user <$> grouped now st = remove_dups (window_users now st).
Proof.
  unfold grouped, values_user_annotate_karma, window_users.
  rewrite <- list_fmap_compose. simpl.
  induction (remove_dups _) as [|u us IH]; [done|].
  rewrite fmap_cons. simpl. by rewrite IH.
Qed.

Lemma grouped_karma now st r :
  r ∈ grouped now st → row_karma r = window_karma now st (row_user r).
Proof.
  unfold grouped, values_user_annotate_karma.
  intros (u & -> & _)%list_elem_of_fmap. simpl.
  by rewrite Coalesce_Sum, foldr_add_delta.
Qed.

Lemma delta_sum_nil_filter now st u :
  u ∉ window_users now st → window_karma now st u = 0.
Proof.
  unfold window_karma, window_users. intros Hu.
  replace (filter (λ e, ke_user e = u) (window now st)) with (@nil KarmaEvent); [done|].
  symmetry. induction (window now st) as [|e es IH]; [done|].
  rewrite fmap_cons, not_elem_of_cons in Hu. destruct Hu as [Hne Hu].
  rewrite filter_cons, decide_False by congruence. auto.
Qed.

Section WithBackend.
Context `{Backend}.

Lemma leaderboard_rows_unfold now st :
  leaderboard_rows now st = take 5 (order_by_karma_desc (grouped now st)).
Proof. reflexivity. Qed.

Lemma ordered_StronglySorted now st :
  StronglySorted karma_desc (order_by_karma_desc (grouped now st)).
Proof. apply Sorted_StronglySorted; [apply _|]. apply order_by_karma_desc_Sorted. Qed.

Lemma ordered_users now st :
  row_user <$> order_by_karma_desc (grouped now st)
  ≡ₚ remove_dups (window_users now st).
Proof. by rewrite order_by_karma_desc_Permutation, grouped_users. Qed.

Lemma ordered_karma now st r :
  r ∈ order_by_karma_desc (grouped now st) →
  row_karma r = window_karma now st (row_user r).
Proof. rewrite order_by_karma_desc_Permutation. apply grouped_karma. Qed.

Lemma leaderboard_rows_elem_of now st r :
  r ∈ leaderboard_rows now st → r ∈ order_by_karma_desc (grouped now st).
Proof.
  rewrite leaderboard_rows_unfold. intros Hr.
  rewrite <- (take_drop 5 (order_by_karma_desc _)). apply elem_of_app. by left.
Qed.

Lemma leaderboard_rows_NoDup now st :
  NoDup (row_user <$> leaderboard_rows now st).
Proof.
  assert (NoDup (row_user <$> order_by_karma_desc (grouped now st))) as Hnd.
  { rewrite ordered_users. apply NoDup_remove_dups. }
  rewrite <- (take_drop 5 (order_by_karma_desc _)), fmap_app in Hnd.
  by apply NoDup_app in Hnd as (Hnd & _ & _).
Qed.

Lemma leaderboard_rows_sorted now st :
  StronglySorted desc (row_karma <$> leaderboard_rows now st).
Proof.
  apply StronglySorted_fmap with (R1 := karma_desc); [done|].
  pose proof (ordered_StronglySorted now st) as Hs.
  rewrite <- (take_drop 5 (order_by_karma_desc _)) in Hs.
  by apply StronglySorted_app_1_l in Hs.
Qed.

(** What the slice cuts off is no better than anything it keeps. *)
Lemma leaderboard_rows_cut now st u :
  u ∈ window_users now st →
  u ∉ row_user <$> leaderboard_rows now st →
  length (leaderboard_rows now st) = 5%nat
  ∧ ∀ r, r ∈ leaderboard_rows now st → window_karma now st u ≤ row_karma r.
Proof.
  intros Hu Hout.
  assert (u ∈ row_user <$> order_by_karma_desc (grouped now st)) as Hin.
  { rewrite ordered_users. by apply elem_of_remove_dups. }
  pose proof (ordered_StronglySorted now st) as Hs.
  rewrite leaderboard_rows_unfold in *.
  rewrite <- (take_drop 5 (order_by_karma_desc _)) in Hin, Hs.
  rewrite fmap_app, elem_of_app in Hin. destruct Hin as [Hin|Hin]; [done|].
  apply list_elem_of_fmap in Hin as (ru & -> & Hru). split.
  - destruct (decide (5 ≤ length (order_by_karma_desc (grouped now st))))%nat.
    + by apply length_take_le.
    + rewrite drop_ge in Hru by lia. by apply elem_of_nil in Hru.
  - intros r Hr.
    rewrite <- (ordered_karma now st ru).
    + by apply (StronglySorted_app_1_elem_of _ _ _ _ _ Hs).
    + rewrite <- (take_drop 5 (order_by_karma_desc _)). apply elem_of_app. by right.
Qed.

Lemma leaderboard_rows_length now st :
  length (leaderboard_rows now st)
  = (5 `min` length (remove_dups (window_users now st)))%nat.
Proof.
  rewrite leaderboard_rows_unfold, length_take.
  by rewrite <- (ordered_users now st), length_fmap.
Qed.

(** [in_bulk] maps an id to a user with that id, and finds every
    requested id that the table holds. *)
Lemma in_bulk_Some ids table i u :
  in_bulk ids table !! i = Some u → user_id u = i.
Proof.
  unfold in_bulk. intros Hl%elem_of_list_to_map_2.
  apply list_elem_of_fmap in Hl as (u' & [= -> ->] & _). done.
Qed.

Lemma in_bulk_is_Some ids table i u :
  i ∈ ids → u ∈ table → user_id u = i → is_Some (in_bulk ids table !! i).
Proof.
  intros Hi Hu Hid. unfold in_bulk.
  destruct (list_to_map _ !! i) as [u'|] eqn:Hl; [eauto|].
  apply not_elem_of_list_to_map_2 in Hl. exfalso. apply Hl.
  rewrite <- list_fmap_compose. apply list_elem_of_fmap.
  exists u. split; [done|]. apply list_elem_of_filter. by rewrite Hid.
Qed.

(** The loop adds at most one entry per row, whatever resolves. *)
Lemma leaderboard_length_le now st : (length (leaderboard now st) ≤ 5)%nat.
Proof.
  unfold leaderboard.
  assert (length (leaderboard_rows now st) ≤ 5)%nat as Hrows
    by (rewrite leaderboard_rows_unfold, length_take; lia).
  revert Hrows. generalize (in_bulk (row_user <$> leaderboard_rows now st) (users st)).
  intros m. generalize 5%nat.
  induction (leaderboard_rows now st) as [|r rows IH]; intros n Hn; [simpl; lia|].
  cbn in *. destruct (m !! row_user r); cbn.
  - specialize (IH (pred n)). lia.
  - specialize (IH (pred n)). lia.
Qed.

(** Under referential integrity no row is skipped by the loop: the
    payload has one entry per row, with the row's user and karma. *)
Lemma leaderboard_payload now st :
  ledger_users_resolve st →
  Forall2 (λ r en, entry_user_id en = row_user r ∧ entry_karma en = row_karma r)
    (leaderboard_rows now st) (leaderboard now st).
Proof.
  intros Hfk. unfold leaderboard.
  assert (Hres : ∀ r, r ∈ leaderboard_rows now st →
                 ∃ u, u ∈ users st ∧ user_id u = row_user r).
  { intros r Hr%leaderboard_rows_elem_of.
    assert (row_user r ∈ window_users now st) as Hu.
    { apply (elem_of_remove_dups (window_users now st)).
      rewrite <- ordered_users. apply list_elem_of_fmap. eauto. }
    apply list_elem_of_fmap in Hu as (e & -> & [_ He]%list_elem_of_filter).
    unfold ledger_users_resolve in Hfk. rewrite Forall_forall in Hfk.
    by apply Exists_exists, Hfk. }
  set (ids := row_user <$> leaderboard_rows now st).
  assert (Hids : ∀ r, r ∈ leaderboard_rows now st → row_user r ∈ ids).
  { intros r Hr. apply list_elem_of_fmap. eauto. }
  clearbody ids.
  induction (leaderboard_rows now st) as [|r rows IH]; [constructor|].
  destruct (Hres r) as (u & Hu & Hid); [left|].
  destruct (in_bulk_is_Some ids (users st) (row_user r) u) as [u' Hu'];
    [apply Hids; left | done | done |].
  cbn. rewrite Hu'. cbn.
  constructor.
  - simpl. split; [|done]. by apply in_bulk_Some in Hu'.
  - apply IH; intros r' Hr'; [apply Hres | apply Hids]; by right.
Qed.

Lemma leaderboard_users now st :
  ledger_users_resolve st →
  entry_user_id <$> leaderboard now st = row_user <$> leaderboard_rows now st.
Proof.
  intros Hp%(leaderboard_payload now).
  induction Hp as [|r en rows ens [Hu _] _ IH]; [done|].
  rewrite !fmap_cons. by rewrite Hu, IH.
Qed.

Lemma leaderboard_karmas now st :
  ledger_users_resolve st →
  entry_karma <$> leaderboard now st = row_karma <$> leaderboard_rows now st.
Proof.
  intros Hp%(leaderboard_payload now).
  induction Hp as [|r en rows ens [_ Hk] _ IH]; [done|].
  rewrite !fmap_cons. by rewrite Hk, IH.
Qed.

End WithBackend.

End LeaderboardFacts.

(** ** The claims about the leaderboard *)

Section LeaderboardClaims.

(** C4.  Over a ledger whose beneficiaries are rows of the user table,
    [leaderboard] at time [now] returns at most 5 entries, as many as
    there are distinct beneficiaries among the events with timestamp
    at or after [now] minus 24 hours if these are fewer; the entries
    are for distinct users, each a beneficiary of such an event and
    shown with the sum of that user's deltas over these events; they
    are in descending order of karma; a beneficiary of the window
    that is left out has no more karma than any entry, and then there
    are 5 entries.  With 7 distinct users of positive window karma
    there are exactly 5 entries. *)
Theorem C4_leaderboard_top5 `{Backend} (now : Z) (st : State) :
  ledger_users_resolve st →
  (length (leaderboard now st) ≤ 5)%nat
  ∧ length (leaderboard now st)
    = (5 `min` length (remove_dups (window_users now st)))%nat
  ∧ NoDup (entry_user_id <$> leaderboard now st)
  ∧ (∀ en, en ∈ leaderboard now st →
       entry_user_id en ∈ window_users now st
       ∧ entry_karma en = window_karma now st (entry_user_id en))
  ∧ StronglySorted desc (entry_karma <$> leaderboard now st)
  ∧ (∀ u, u ∈ window_users now st →
       u ∉ entry_user_id <$> leaderboard now st →
       length (leaderboard now st) = 5%nat
       ∧ ∀ en, en ∈ leaderboard now st → window_karma now st u ≤ entry_karma en)
  ∧ (∀ us, NoDup us → length us = 7%nat →
       (∀ u, u ∈ us → 0 < window_karma now st u) →
       length (leaderboard now st) = 5%nat).
Proof.
  intros Hfk.
  pose proof (leaderboard_payload now st Hfk) as Hpay.
  pose proof (Forall2_length _ _ _ Hpay) as Hlen.
  assert (Hlen5 : length (leaderboard now st)
                  = (5 `min` length (remove_dups (window_users now st)))%nat)
    by (by rewrite <- Hlen, leaderboard_rows_length).
  split; [lia|]. split; [exact Hlen5|].
  split; [rewrite leaderboard_users by done; apply leaderboard_rows_NoDup|].
  split.
  { intros en Hen.
    destruct (Forall2_elem_of_r _ _ _ _ Hpay Hen) as (r & Hr & -> & ->).
    apply leaderboard_rows_elem_of in Hr. split; [|by apply ordered_karma].
    apply (elem_of_remove_dups (window_users now st)).
    rewrite <- ordered_users. apply list_elem_of_fmap. eauto. }
  split; [rewrite leaderboard_karmas by done; apply leaderboard_rows_sorted|].
  split.
  { intros u Hu Hout. rewrite leaderboard_users in Hout by done.
    destruct (leaderboard_rows_cut now st u Hu Hout) as [H5 Hle].
    split; [lia|]. intros en Hen.
    destruct (Forall2_elem_of_r _ _ _ _ Hpay Hen) as (r & Hr & _ & ->). auto. }
  intros us Hnd H7 Hpos. rewrite Hlen5.
  assert (us ⊆+ remove_dups (window_users now st)) as Hsub%submseteq_length; [|lia].
  apply NoDup_submseteq; [done|]. intros u Hu. apply elem_of_remove_dups.
  destruct (decide (u ∈ window_users now st)) as [|Hout]; [done|].
  apply delta_sum_nil_filter in Hout. specialize (Hpos u Hu). lia.
Qed.

(** Seven users with positive karma in the window: five entries,
    karma 10, 6, 5, 5, 2; the 25 hour old row of user 4 does not
    count, the row exactly 24 hours old of user 1 does. *)
Lemma C4_witness :
  length (@leaderboard forward_backend Sample.noon Sample.seven_state) = 5%nat
  ∧ entry_karma <$> @leaderboard forward_backend Sample.noon Sample.seven_state
    = [10; 6; 5; 5; 2]
  ∧ window_karma Sample.noon Sample.seven_state 4 = 1
  ∧ window_karma Sample.noon Sample.seven_state 1 = 6.
Proof.
  destruct (@C4_leaderboard_top5 forward_backend Sample.noon Sample.seven_state)
    as (_ & _ & _ & _ & _ & _ & H7).
  - apply (bool_decide_unpack _). vm_compute. exact I.
  - split.
    + apply (H7 [1; 2; 3; 4; 5; 6; 7]).
      * apply (bool_decide_unpack _). vm_compute. exact I.
      * reflexivity.
      * intros u Hu. repeat (apply elem_of_cons in Hu as [->|Hu]; [by vm_compute|]).
        by apply elem_of_nil in Hu.
    + repeat split; by vm_compute.
Defined.

(** C5, as stated, fails.  The query orders by karma alone.  On a
    ledger in which users 2 and 1 have karma 5 each, a backend that is
    sorted on the key answers with user 2 before user 1, and another
    one with user 1 before user 2.  With six users of karma 5 the
    first backend cuts user 4 and keeps users 5 and 6, the second
    cuts user 3. *)
Lemma C5_counterexample :
  entry_user_id <$> @leaderboard forward_backend Sample.noon Sample.tie_state = [2; 1]
  ∧ entry_karma <$> @leaderboard forward_backend Sample.noon Sample.tie_state = [5; 5]
  ∧ entry_user_id <$> @leaderboard backward_backend Sample.noon Sample.tie_state = [1; 2]
  ∧ entry_user_id <$> @leaderboard forward_backend Sample.noon Sample.six_tie_state
    = [5; 6; 1; 2; 3]
  ∧ entry_user_id <$> @leaderboard backward_backend Sample.noon Sample.six_tie_state
    = [2; 1; 6; 5; 4].
Proof. repeat split; by vm_compute. Qed.

(** C5, amended.  [leaderboard] orders its entries by summed karma,
    descending, and by nothing else: no rule on user ids decides
    between users of equal karma, their order and which of them
    survive the cut are the backend's.  What the code fixes is the
    karma values: over a ledger whose beneficiaries are rows of the
    user table, any two backends answer with the same karma values in
    the same, descending, order. *)
Theorem C5_ties_are_left_to_the_backend (B1 B2 : Backend) (now : Z) (st : State) :
  ledger_users_resolve st →
  StronglySorted desc (entry_karma <$> @leaderboard B1 now st)
  ∧ entry_karma <$> @leaderboard B1 now st = entry_karma <$> @leaderboard B2 now st.
Proof.
  intros Hfk. rewrite !leaderboard_karmas by done.
  split; [apply leaderboard_rows_sorted|].
  rewrite !leaderboard_rows_unfold, !fmap_take. f_equal.
  apply (StronglySorted_unique desc).
  - apply StronglySorted_fmap with (R1 := karma_desc); [done|].
    apply ordered_StronglySorted.
  - apply StronglySorted_fmap with (R1 := karma_desc); [done|].
    apply ordered_StronglySorted.
  - by rewrite !order_by_karma_desc_Permutation.
Qed.

Lemma C5_witness :
  StronglySorted desc
    (entry_karma <$> @leaderboard forward_backend Sample.noon Sample.six_tie_state)
  ∧ entry_karma <$> @leaderboard forward_backend Sample.noon Sample.six_tie_state
    = entry_karma <$> @leaderboard backward_backend Sample.noon Sample.six_tie_state.
Proof.
  apply (C5_ties_are_left_to_the_backend forward_backend backward_backend
           Sample.noon Sample.six_tie_state).
  apply (bool_decide_unpack _). vm_compute. exact I.
Defined.

End LeaderboardClaims.

(** ** The comment tree: the loop, the levels, the recursion *)

Section TreeFacts.

Implicit Types (c p : AnnotatedComment) (cs : list AnnotatedComment).
Implicit Types (bp : gmap Z (list AnnotatedComment)).

(** What the loop leaves in [roots] and [by_parent]. *)
Lemma foldl_collect cs : ∀ roots bp,
  ∃ bp', foldl collect (roots, bp) cs = (roots ++ top_level cs, bp')
         ∧ ∀ q, default [] (bp' !! q) = default [] (bp !! q) ++ replies_of cs q.
Proof.
  induction cs as [|c cs IH]; intros roots bp.
  - exists bp. simpl. split; [by rewrite app_nil_r|].
    intros q. by rewrite app_nil_r.
  - simpl. unfold top_level, replies_of. rewrite filter_cons.
    destruct (c_parent_id c) as [pid|] eqn:Hp.
    + destruct (IH roots (<[pid := default [] (bp !! pid) ++ [c]]> bp))
        as (bp' & Hfold & Hbp).
      exists bp'. rewrite decide_False by done. split; [exact Hfold|].
      intros q. rewrite Hbp, filter_cons. unfold replies_of.
      destruct (decide (pid = q)) as [->|Hne].
      * rewrite lookup_insert_eq, decide_True by done. simpl.
        by rewrite <- app_assoc.
      * rewrite lookup_insert_ne by done.
        rewrite decide_False by congruence. done.
    + destruct (IH (roots ++ [c]) bp) as (bp' & Hfold & Hbp).
      exists bp'. rewrite decide_True by done. split.
      * rewrite Hfold. by rewrite <- app_assoc.
      * intros q. rewrite Hbp, filter_cons, decide_False by congruence. done.
Qed.

Lemma build_comment_tree_unfold fuel cs :
  ∃ bp, build_comment_tree fuel cs
        = mapM (λ c, _comment_to_dict fuel c bp) (top_level cs)
        ∧ ∀ q, default [] (bp !! q) = replies_of cs q.
Proof.
  destruct (foldl_collect cs [] ∅) as (bp & Hfold & Hbp).
  exists bp. unfold build_comment_tree. rewrite Hfold. split; [done|].
  intros q. rewrite Hbp, lookup_empty. done.
Qed.

Lemma level_elem_of cs c k : level cs c k → c ∈ cs.
Proof. by destruct 1. Qed.

Section UniqueIds.
Context (cs : list AnnotatedComment) (Hids : NoDup (c_id <$> cs)).

Lemma same_id c c' : c ∈ cs → c' ∈ cs → c_id c = c_id c' → c = c'.
Proof.
  intros [i Hi]%list_elem_of_lookup [j Hj]%list_elem_of_lookup Heq.
  assert (i = j) as ->; [|congruence].
  eapply NoDup_lookup; [exact Hids|..].
  - rewrite list_lookup_fmap, Hi. reflexivity.
  - rewrite list_lookup_fmap, Hj. simpl. by rewrite Heq.
Qed.

Lemma level_functional c k k' : level cs c k → level cs c k' → k = k'.
Proof.
  intros Hk. revert k'. induction Hk as [c Hc Hroot|c p k Hc Hp Hk IH]; intros k' Hk'.
  - destruct Hk' as [|c p' k' _ Hp' _]; [done|congruence].
  - destruct Hk' as [c _ Hroot|c p' k' _ Hp' Hk']; [congruence|].
    f_equal. apply IH.
    assert (p = p') as ->; [|done].
    apply same_id; eauto using level_elem_of. congruence.
Qed.

(** The ancestors of a comment of level [k] are [k + 1] different
    comments of the list, so levels stay below the length. *)
Lemma level_chain c k :
  level cs c k →
  ∃ chain : list AnnotatedComment,
    length chain = S k ∧ NoDup chain
    ∧ ∀ x, x ∈ chain → ∃ j, (j ≤ k)%nat ∧ level cs x j.
Proof.
  induction 1 as [c Hc Hroot|c p k Hc Hp Hk (chain & Hlen & Hnd & Hall)].
  - exists [c]. split; [done|]. split; [apply NoDup_singleton|].
    intros x ->%list_elem_of_singleton. exists 0%nat. split; [lia|by constructor].
  - exists (c :: chain). split; [simpl; by rewrite Hlen|]. split.
    + constructor; [|done]. intros (j & Hj & Hlev)%Hall.
      assert (j = S k); [|lia].
      eapply level_functional; [exact Hlev|]. by econstructor.
    + intros x [->|Hx]%elem_of_cons.
      * exists (S k). split; [lia|]. by econstructor.
      * destruct (Hall x Hx) as (j & Hj & Hlev). exists j. split; [lia|done].
Qed.

Lemma level_lt_length c k : level cs c k → (k < length cs)%nat.
Proof.
  intros (chain & Hlen & Hnd & Hall)%level_chain.
  assert (chain ⊆+ cs) as Hsub%submseteq_length; [|lia].
  apply NoDup_submseteq; [done|].
  intros x (j & _ & Hlev)%Hall. eauto using level_elem_of.
Qed.

Lemma level_of_reply c k child :
  level cs c k → child ∈ replies_of cs (c_id c) → level cs child (S k).
Proof.
  intros Hk [Hp Hin]%list_elem_of_filter. by econstructor.
Qed.

(** With enough fuel [_comment_to_dict] returns on every comment that
    has a level, and the dict it returns satisfies whatever relation
    [P] is kept by putting a node over the dicts of its replies. *)
Lemma _comment_to_dict_total (P : AnnotatedComment → CommentDict → Prop) bp :
  (∀ q, default [] (bp !! q) = replies_of cs q) →
  (∀ c k children,
     level cs c k → Forall2 P (replies_of cs (c_id c)) children →
     P c (dict_of c children)) →
  ∀ fuel c k,
    level cs c k → (length cs ≤ k + fuel)%nat →
    ∃ d, _comment_to_dict fuel c bp = Some d ∧ P c d.
Proof.
  intros Hbp Hnode. induction fuel as [|fuel IH]; intros c k Hk Hfuel.
  - apply level_lt_length in Hk. lia.
  - simpl. rewrite Hbp.
    assert (∃ children,
              mapM (λ child, _comment_to_dict fuel child bp) (replies_of cs (c_id c))
                = Some children
              ∧ Forall2 P (replies_of cs (c_id c)) children)
      as (children & -> & Hch).
    { assert (Forall (λ child, level cs child (S k)) (replies_of cs (c_id c))) as Hlev.
      { apply Forall_forall. intros child Hin. by eapply level_of_reply. }
      induction Hlev as [|child rest Hchild _ IHrest].
      - exists []. split; [done|constructor].
      - destruct (IH child (S k) Hchild ltac:(lia)) as (d & Hd & HP).
        destruct IHrest as (ds & Hds & HPs).
        exists (d :: ds). split; [|by constructor].
        rewrite mapM_Some. constructor; [done|]. by apply mapM_Some. }
    simpl. eexists. split; [reflexivity|]. by eapply Hnode.
Qed.

(** The same for the whole forest. *)
Lemma build_comment_tree_total (P : AnnotatedComment → CommentDict → Prop) fuel :
  (∀ c k children,
     level cs c k → Forall2 P (replies_of cs (c_id c)) children →
     P c (dict_of c children)) →
  (length cs ≤ fuel)%nat →
  ∃ forest, build_comment_tree fuel cs = Some forest
            ∧ Forall2 P (top_level cs) forest.
Proof.
  intros Hnode Hfuel.
  destruct (build_comment_tree_unfold fuel cs) as (bp & -> & Hbp).
  assert (Forall (λ c, level cs c 0) (top_level cs)) as Hlev.
  { apply Forall_forall. intros c [Hroot Hin]%list_elem_of_filter. by constructor. }
  induction Hlev as [|c rest Hc _ IHrest].
  - exists []. split; [done|constructor].
  - destruct (_comment_to_dict_total P bp Hbp Hnode fuel c 0%nat Hc ltac:(lia))
      as (d & Hd & HP).
    destruct IHrest as (ds & Hds & HPs).
    exists (d :: ds). split; [|by constructor].
    rewrite mapM_Some. constructor; [done|]. by apply mapM_Some.
Qed.

End UniqueIds.

End TreeFacts.

(** ** The claims about the comment tree *)

Section TreeClaims.

Implicit Types (c p : AnnotatedComment) (cs : list AnnotatedComment).

Lemma StronglySorted_fmap_filter {A} (f : A → Z) (P : A → Prop)
    `{!∀ x, Decision (P x)} (l : list A) :
  StronglySorted Z.le (f <$> l) → StronglySorted Z.le (f <$> filter P l).
Proof.
  induction l as [|x l IH]; [done|].
  rewrite fmap_cons. intros [Hl Hx]%StronglySorted_inv.
  rewrite filter_cons. destruct (decide (P x)); [|by apply IH].
  rewrite fmap_cons. constructor; [by apply IH|].
  rewrite Forall_fmap in Hx |- *. rewrite Forall_forall in Hx |- *.
  intros y [_ Hy]%list_elem_of_filter. by apply Hx.
Qed.

Lemma elem_of_forest_ids (forest : list CommentDict) (i : Z) :
  i ∈ forest_ids forest ↔ ∃ d, d ∈ forest ∧ i ∈ dict_ids d.
Proof.
  unfold forest_ids. rewrite list_elem_of_In, in_concat. split.
  - intros (ids & (d & <- & Hd)%in_map_iff & Hi).
    exists d. split; by apply list_elem_of_In.
  - intros (d & Hd & Hi). exists (dict_ids d).
    split; [apply in_map|]; by apply list_elem_of_In.
Qed.

Lemma dict_ids_dict_of c children :
  dict_ids (dict_of c children) = c_id c :: forest_ids children.
Proof. reflexivity. Qed.

Lemma under_elem_of cs o c : o ∈ cs → under cs o c → c ∈ cs.
Proof. by destruct 2. Qed.

(** A comment that has a level has only ancestors that have one. *)
Lemma under_level cs o c k :
  NoDup (c_id <$> cs) → o ∈ cs →
  under cs o c → level cs c k → ∃ j, level cs o j.
Proof.
  intros Hids Ho Hunder. revert k.
  induction Hunder as [|c p Hc Hp Hunder IH]; intros k Hk; [eauto|].
  destruct Hk as [c _ Hroot|c p' k _ Hp' Hk]; [congruence|].
  apply (IH k). assert (p = p') as ->; [|done].
  apply (same_id cs Hids); eauto using level_elem_of, under_elem_of. congruence.
Qed.

Lemma orphan_no_level cs o k : orphan cs o → ¬ level cs o k.
Proof.
  intros (_ & q & Hq & Hout) Hk. destruct Hk as [o _ Hroot|o p k _ Hp Hk]; [congruence|].
  apply Hout. assert (q = c_id p) as -> by congruence.
  apply list_elem_of_fmap. eauto using level_elem_of.
Qed.

(** C6.  For a list of comments with distinct ids, [build_comment_tree]
    returns (with recursion depth up to the number of comments) a
    forest whose roots are the dicts of the comments without parent,
    in input order, and in which the children of every node are the
    dicts of exactly its direct replies, in input order; when the
    input is in ascending order of creation, so are the roots and
    every sibling group.  A list that is a forest, in which replies
    come after their parents, is a special case. *)
Theorem C6_build_comment_tree_forest cs fuel :
  NoDup (c_id <$> cs) →
  (length cs ≤ fuel)%nat →
  ∃ forest,
    build_comment_tree fuel cs = Some forest
    ∧ Forall2 (tree_for cs) (top_level cs) forest
    ∧ (StronglySorted Z.le (c_created_at <$> cs) →
       StronglySorted Z.le (d_created_at <$> forest)
       ∧ Forall chronological forest).
Proof.
  intros Hids Hfuel.
  destruct (build_comment_tree_total cs Hids (tree_for cs) fuel) as (forest & Hb & Htree);
    [by constructor | done |].
  exists forest. split; [done|]. split; [done|].
  intros Hsorted.
  destruct (build_comment_tree_total cs Hids
              (λ c d, d_created_at d = c_created_at c ∧ chronological d) fuel)
    as (forest' & Hb' & Hchron); [|done|].
  { intros c k children _ Hch. split; [done|]. constructor; simpl.
    - replace (d_created_at <$> children)
        with (c_created_at <$> replies_of cs (c_id c)).
      + by apply StronglySorted_fmap_filter.
      + clear -Hch. induction Hch as [|x y l l' [Hxy _] _ IH]; [done|].
        rewrite !fmap_cons. by rewrite Hxy, IH.
    - clear -Hch. induction Hch as [|x y l l' [_ Hy] _ IH]; by constructor. }
  rewrite Hb in Hb'. injection Hb' as <-. split.
  - replace (d_created_at <$> forest) with (c_created_at <$> top_level cs).
    + by apply StronglySorted_fmap_filter.
    + clear -Hchron. induction Hchron as [|x y l l' [Hxy _] _ IH]; [done|].
      rewrite !fmap_cons. by rewrite Hxy, IH.
  - clear -Hchron. induction Hchron as [|x y l l' [_ Hy] _ IH]; by constructor.
Qed.

(** The example of the specification: roots A and B, the chain
    A, C, D below A, nothing below B. *)
Lemma C6_witness :
  build_comment_tree 4 Sample.thread = Some Sample.thread_forest
  ∧ Forall2 (tree_for Sample.thread) [Sample.comment_A; Sample.comment_B]
      Sample.thread_forest
  ∧ Forall chronological Sample.thread_forest.
Proof.
  destruct (C6_build_comment_tree_forest Sample.thread 4) as (forest & Hb & Htree & Hsorted).
  - apply (bool_decide_unpack _). vm_compute. exact I.
  - simpl. lia.
  - assert (forest = Sample.thread_forest) as ->.
    { vm_compute in Hb. injection Hb as <-. reflexivity. }
    split; [reflexivity|]. split; [exact Htree|].
    apply Hsorted. vm_compute. repeat (constructor; [|repeat constructor; done]).
    constructor.
Defined.

(** C10.  For a list of comments with distinct ids, every id in the
    forest [build_comment_tree] returns, at a root or below one,
    belongs to a comment whose chain of parents inside the list ends
    at a comment without parent.  A comment whose parent id names no
    comment of the list, and every comment below it, occurs nowhere
    in the forest. *)
Theorem C10_orphans_are_omitted cs fuel :
  NoDup (c_id <$> cs) →
  (length cs ≤ fuel)%nat →
  ∃ forest,
    build_comment_tree fuel cs = Some forest
    ∧ (∀ i, i ∈ forest_ids forest → ∃ c k, c_id c = i ∧ level cs c k)
    ∧ (∀ o c, orphan cs o → under cs o c → c_id c ∉ forest_ids forest).
Proof.
  intros Hids Hfuel.
  destruct (build_comment_tree_total cs Hids
              (λ c d, ∀ i, i ∈ dict_ids d → ∃ c' k', c_id c' = i ∧ level cs c' k') fuel)
    as (forest & Hb & Hall); [|done|].
  { intros c k children Hk Hch i. rewrite dict_ids_dict_of.
    intros [->|Hi]%elem_of_cons; [eauto|].
    apply elem_of_forest_ids in Hi as (d & Hd & Hi).
    destruct (Forall2_elem_of_r _ _ _ _ Hch Hd) as (child & _ & Hchild). eauto. }
  assert (Hlevels : ∀ i, i ∈ forest_ids forest → ∃ c k, c_id c = i ∧ level cs c k).
  { intros i (d & Hd & Hi)%elem_of_forest_ids.
    destruct (Forall2_elem_of_r _ _ _ _ Hall Hd) as (root & _ & Hroot). eauto. }
  exists forest. split; [done|]. split; [done|].
  intros o c Ho Hunder (c' & k & Hid & Hk)%Hlevels.
  assert (o ∈ cs) as Hocs by apply Ho.
  assert (c' = c) as ->.
  { apply (same_id cs Hids); eauto using level_elem_of, under_elem_of. }
  destruct (under_level cs o c k Hids Hocs Hunder Hk) as (j & Hj).
  by apply (orphan_no_level cs o j).
Qed.

(** In the sample the lost reply 2, the reply 3 below it and the two
    comments 5 and 6 that name each other are all left out. *)
Lemma C10_witness :
  ∃ forest,
    build_comment_tree 6 Sample.broken_thread = Some forest
    ∧ (∀ i, i ∈ forest_ids forest →
         ∃ c k, c_id c = i ∧ level Sample.broken_thread c k)
    ∧ (∀ o c, orphan Sample.broken_thread o → under Sample.broken_thread o c →
         c_id c ∉ forest_ids forest).
Proof.
  apply (C10_orphans_are_omitted Sample.broken_thread 6).
  - apply (bool_decide_unpack _). vm_compute. exact I.
  - simpl. lia.
Defined.

End TreeClaims.

(** ** The like tables and the ledger under sequences of toggles *)

Section RegistryFacts.

Lemma pair_rows_nil {A} (f g : A → Z) (a b : Z) (t : list A) :
  filter (λ l, f l = a ∧ g l = b) t = []
  ↔ (a, b) ∉ (λ l, (f l, g l)) <$> t.
Proof.
  induction t as [|x t IH].
  - split; [intros _; apply not_elem_of_nil | done].
  - rewrite filter_cons, fmap_cons, not_elem_of_cons.
    destruct (decide (f x = a ∧ g x = b)) as [[<- <-]|Hne].
    + split; [discriminate | intros [? _]; done].
    + rewrite IH. split; [|tauto]. intros Hout. split; [|done].
      intros [= ? ?]. apply Hne. by split.
Qed.

Lemma pair_rows_delete {A} (f g : A → Z) (a b : Z) (t : list A) :
  (λ l, (f l, g l)) <$> filter (λ l, ¬ (f l = a ∧ g l = b)) t
  = filter (λ p, p ≠ (a, b)) ((λ l, (f l, g l)) <$> t).
Proof.
  induction t as [|x t IH]; [done|].
  rewrite fmap_cons, !filter_cons.
  destruct (decide (f x = a ∧ g x = b)) as [[<- <-]|Hne].
  - rewrite decide_False by tauto. by rewrite decide_False by tauto.
  - rewrite decide_True by done.
    rewrite decide_True by (intros [= ? ?]; apply Hne; by split).
    by rewrite fmap_cons, IH.
Qed.

Lemma filter_ne_absent (x : Z * Z) (l : list (Z * Z)) :
  x ∉ l → filter (λ p, p ≠ x) l = l.
Proof.
  induction l as [|y l IH]; [done|].
  rewrite not_elem_of_cons. intros [Hne Hl].
  rewrite filter_cons, decide_True by done. by rewrite IH.
Qed.

(** Deleting the one occurrence of [x] lowers the number of elements
    that satisfy [P] by one when [x] does, and not at all otherwise. *)
Lemma filter_delete_length (P : Z * Z → Prop) `{!∀ p, Decision (P p)}
    (x : Z * Z) (l : list (Z * Z)) :
  NoDup l → x ∈ l →
  Z.of_nat (length (filter P (filter (λ p, p ≠ x) l)))
  = Z.of_nat (length (filter P l)) - (if decide (P x) then 1 else 0).
Proof.
  induction l as [|y l IH]; [by intros _ ?%elem_of_nil|].
  intros [Hy Hnd]%NoDup_cons Hin. rewrite (filter_cons (λ p, p ≠ x)).
  destruct (decide (y = x)) as [->|Hne].
  - rewrite decide_False by tauto. rewrite filter_ne_absent by done.
    rewrite filter_cons. destruct (decide (P x)); [|lia].
    rewrite length_cons. lia.
  - rewrite decide_True by done.
    apply elem_of_cons in Hin as [->|Hin]; [done|].
    rewrite !(filter_cons P). specialize (IH Hnd Hin).
    destruct (decide (P y)); [rewrite !length_cons|]; lia.
Qed.

Lemma likers_like_pairs kind id st :
  likers kind id st = snd <$> filter (λ p, p.1 = id) (like_pairs kind st).
Proof.
  destruct kind; simpl.
  - induction (post_likes st) as [|l t IH]; [done|].
    rewrite fmap_cons, !filter_cons. simpl.
    destruct (decide (pl_post l = id)); [rewrite !fmap_cons|]; by rewrite IH.
  - induction (comment_likes st) as [|l t IH]; [done|].
    rewrite fmap_cons, !filter_cons. simpl.
    destruct (decide (cl_comment l = id)); [rewrite !fmap_cons|]; by rewrite IH.
Qed.

Lemma elem_of_likers kind id user st :
  user ∈ likers kind id st ↔ (id, user) ∈ like_pairs kind st.
Proof.
  rewrite likers_like_pairs, list_elem_of_fmap. split.
  - intros ([i u] & -> & [Hi Hin]%list_elem_of_filter). simpl in Hi. by subst.
  - intros Hin. exists (id, user). split; [done|]. by apply list_elem_of_filter.
Qed.

(** What one toggle on an existing target does to the two like tables
    and to the ledger. *)
Lemma toggle_like_tables kind now method user id st a :
  target_author kind id st = Ok a →
  ∃ (st' : State) (r : LikeResponse),
    toggle_like kind now method user id st = Ok (st', r)
    ∧ same_targets st st'
    ∧ (∀ kind', kind' ≠ kind → like_pairs kind' st' = like_pairs kind' st)
    ∧ match method, decide ((id, user) ∈ like_pairs kind st) with
      | POST, left _ =>
          like_pairs kind st' = like_pairs kind st
          ∧ karma_events st' = karma_events st
      | POST, right _ =>
          like_pairs kind st' = like_pairs kind st ++ [(id, user)]
          ∧ karma_events st' = karma_events st ++ [policy_event kind POST a user id now]
      | DELETE, left _ =>
          like_pairs kind st' = filter (λ p, p ≠ (id, user)) (like_pairs kind st)
          ∧ karma_events st' = karma_events st ++ [policy_event kind DELETE a user id now]
      | DELETE, right _ =>
          like_pairs kind st' = like_pairs kind st
          ∧ karma_events st' = karma_events st
      end.
Proof.
  intros Ha.
  assert (Hother : ∀ st' : State,
            match kind with
            | PostTarget => comment_likes st' = comment_likes st
            | CommentTarget => post_likes st' = post_likes st
            end →
            ∀ kind', kind' ≠ kind → like_pairs kind' st' = like_pairs kind' st).
  { intros st' Hsame kind' Hne. destruct kind, kind'; try done; simpl; by rewrite Hsame. }
  destruct method; destruct (decide ((id, user) ∈ like_pairs kind st)) as [Hin|Hout].
  - exists st, (mkLikeResponse true (relation_count kind id st)).
    split; [apply toggle_like_POST_dup with a; [done|by apply elem_of_likers]|].
    unfold same_targets. eauto 10.
  - destruct kind.
    + apply target_author_Ok_post in Ha as (p & Hget & Hid & Hau).
      unfold toggle_like, post_like. rewrite Hget. simpl. rewrite Hid, Hau.
      unfold PostLike_create, PostLike_filter.
      rewrite (proj2 (pair_rows_nil pl_post pl_user id user (post_likes st)) Hout). simpl.
      eexists _, _. split; [reflexivity|]. split; [done|].
      split; [by apply Hother|]. simpl. by rewrite fmap_app.
    + apply target_author_Ok_comment in Ha as (p & Hget & Hid & Hau).
      unfold toggle_like, comment_like. rewrite Hget. simpl. rewrite Hid, Hau.
      unfold CommentLike_create, CommentLike_filter.
      rewrite (proj2 (pair_rows_nil cl_comment cl_user id user (comment_likes st)) Hout). simpl.
      eexists _, _. split; [reflexivity|]. split; [done|].
      split; [by apply Hother|]. simpl. by rewrite fmap_app.
  - destruct kind.
    + apply target_author_Ok_post in Ha as (p & Hget & Hid & Hau).
      unfold toggle_like, post_like. rewrite Hget. simpl. rewrite Hid, Hau.
      unfold PostLike_filter.
      destruct (filter _ (post_likes st)) eqn:Hf.
      { by apply pair_rows_nil in Hf. }
      rewrite bool_decide_eq_true_2 by (simpl; lia). simpl.
      eexists _, _. split; [reflexivity|]. split; [done|].
      split; [by apply Hother|]. simpl. by rewrite pair_rows_delete.
    + apply target_author_Ok_comment in Ha as (p & Hget & Hid & Hau).
      unfold toggle_like, comment_like. rewrite Hget. simpl. rewrite Hid, Hau.
      unfold CommentLike_filter.
      destruct (filter _ (comment_likes st)) eqn:Hf.
      { by apply pair_rows_nil in Hf. }
      rewrite bool_decide_eq_true_2 by (simpl; lia). simpl.
      eexists _, _. split; [reflexivity|]. split; [done|].
      split; [by apply Hother|]. simpl. by rewrite pair_rows_delete.
  - destruct kind.
    + apply target_author_Ok_post in Ha as (p & Hget & Hid & Hau).
      unfold toggle_like, post_like. rewrite Hget. simpl. rewrite Hid.
      unfold PostLike_filter.
      rewrite (proj2 (pair_rows_nil pl_post pl_user id user (post_likes st)) Hout). simpl.
      eexists _, _. split; [reflexivity|]. split; [done|].
      split; [by apply Hother|]. simpl.
      by rewrite pair_rows_delete, filter_ne_absent.
    + apply target_author_Ok_comment in Ha as (p & Hget & Hid & Hau).
      unfold toggle_like, comment_like. rewrite Hget. simpl. rewrite Hid.
      unfold CommentLike_filter.
      rewrite (proj2 (pair_rows_nil cl_comment cl_user id user (comment_likes st)) Hout). simpl.
      eexists _, _. split; [reflexivity|]. split; [done|].
      split; [by apply Hother|]. simpl.
      by rewrite pair_rows_delete, filter_ne_absent.
Qed.

End RegistryFacts.

Section RegistrySteps.

Lemma delta_sum_app (es es' : list KarmaEvent) :
  delta_sum (es ++ es') = delta_sum es + delta_sum es'.
Proof.
  induction es as [|e es IH]; [simpl; lia|].
  rewrite <- app_comm_cons. unfold delta_sum in *. cbn [foldr]. rewrite IH. lia.
Qed.

Lemma ledger_karma_append st st' e u :
  karma_events st' = karma_events st ++ [e] →
  ledger_karma st' u
  = ledger_karma st u + (if decide (ke_user e = u) then ke_delta e else 0).
Proof.
  intros Hk. unfold ledger_karma. rewrite Hk, filter_app, delta_sum_app.
  rewrite filter_cons. destruct (decide (ke_user e = u)); simpl; lia.
Qed.

Lemma standing_likes_eq kind st st' u :
  same_targets st st' → like_pairs kind st' = like_pairs kind st →
  standing_likes kind st' u = standing_likes kind st u.
Proof.
  intros Hs Hp. unfold standing_likes. rewrite Hp. f_equal.
  apply list_filter_iff. intros p. by rewrite (same_targets_author st st').
Qed.

(** The effect of one request on the karma of [u]: [d] likes more on
    the targets of [u], worth the like delta of the kind each. *)
Lemma step_effect st r u :
  pairs_unique st →
  ∃ d : Z,
    ledger_karma (step st r) u
      = ledger_karma st u + policy_delta (req_kind r) POST * d
    ∧ Z.of_nat (standing_likes (req_kind r) (step st r) u)
      = Z.of_nat (standing_likes (req_kind r) st u) + d
    ∧ ∀ kind', kind' ≠ req_kind r →
        standing_likes kind' (step st r) u = standing_likes kind' st u.
Proof.
  intros Huniq. destruct r as [kind now method user id]. unfold step. simpl.
  destruct (target_author kind id st) as [a| |] eqn:Ha.
  2,3: destruct (toggle_like kind now method user id st) as [[st' resp]| |] eqn:Ht;
       [apply toggle_like_Ok_target in Ht as [a' Ha']; congruence
       |exists 0; split; [lia|]; split; [lia|done]..].
  destruct (toggle_like_tables kind now method user id st a Ha)
    as (st' & resp & -> & Hs & Hother & Hcase).
  assert (Hframe : ∀ kind', kind' ≠ kind →
            standing_likes kind' st' u = standing_likes kind' st u)
    by (intros kind' Hne; apply standing_likes_eq; auto).
  destruct method; destruct (decide ((id, user) ∈ like_pairs kind st)) as [Hin|Hout];
    destruct Hcase as [Hp Hk].
  - exists 0. rewrite (standing_likes_eq kind st st') by done.
    unfold ledger_karma. rewrite Hk. split; [lia|]. split; [lia|done].
  - exists (if decide (a = u) then 1 else 0).
    rewrite (ledger_karma_append st st' _ u Hk). simpl.
    split; [destruct (decide (a = u)), kind; simpl; lia|]. split; [|done].
    unfold standing_likes.
    rewrite (list_filter_iff _ (λ p, target_author kind p.1 st = Ok u))
      by (intros p; by rewrite (same_targets_author st st')).
    rewrite Hp, filter_app, length_app.
    rewrite filter_cons, filter_nil. cbn [fst]. rewrite Ha.
    destruct (decide (a = u)) as [->|Hne].
    + rewrite decide_True by done. rewrite length_cons. simpl length. lia.
    + rewrite decide_False by congruence. simpl length. lia.
  - exists (if decide (a = u) then -1 else 0).
    rewrite (ledger_karma_append st st' _ u Hk). simpl.
    split; [destruct (decide (a = u)), kind; simpl; lia|]. split; [|done].
    unfold standing_likes.
    rewrite (list_filter_iff _ (λ p, target_author kind p.1 st = Ok u))
      by (intros p; by rewrite (same_targets_author st st')).
    rewrite Hp.
    rewrite filter_delete_length by auto. cbn [fst]. rewrite Ha.
    destruct (decide (a = u)) as [->|Hne].
    + rewrite decide_True by done. lia.
    + rewrite decide_False by congruence. lia.
  - exists 0. rewrite (standing_likes_eq kind st st') by done.
    unfold ledger_karma. rewrite Hk. split; [lia|]. split; [lia|done].
Qed.

Lemma step_pairs_unique st r : pairs_unique st → pairs_unique (step st r).
Proof.
  intros Huniq. destruct r as [kind now method user id]. unfold step. simpl.
  destruct (target_author kind id st) as [a| |] eqn:Ha.
  2,3: destruct (toggle_like kind now method user id st) as [[st' resp]| |] eqn:Ht;
       [apply toggle_like_Ok_target in Ht as [a' Ha']; congruence | done..].
  destruct (toggle_like_tables kind now method user id st a Ha)
    as (st' & resp & -> & Hs & Hother & Hcase).
  intros kind'. destruct (decide (kind' = kind)) as [->|Hne];
    [|rewrite Hother by done; apply Huniq].
  destruct method; destruct (decide ((id, user) ∈ like_pairs kind st)) as [Hin|Hout];
    destruct Hcase as [-> _]; try apply Huniq.
  - apply NoDup_app. split; [apply Huniq|]. split; [|apply NoDup_singleton].
    intros p Hp ->%list_elem_of_singleton. done.
  - apply NoDup_filter, Huniq.
Qed.

Lemma standing_karma_step st r u d :
  Z.of_nat (standing_likes (req_kind r) (step st r) u)
    = Z.of_nat (standing_likes (req_kind r) st u) + d →
  (∀ kind', kind' ≠ req_kind r →
     standing_likes kind' (step st r) u = standing_likes kind' st u) →
  standing_karma (step st r) u
  = standing_karma st u + policy_delta (req_kind r) POST * d.
Proof.
  intros Hd Hother. unfold standing_karma. destruct (req_kind r).
  - rewrite Hd, (Hother CommentTarget) by done. simpl. lia.
  - rewrite Hd, (Hother PostTarget) by done. simpl. lia.
Qed.

End RegistrySteps.

(** ** Further properties of the toggles *)

Section RegistryProperties.

(** X1.  Running any sequence of toggle requests keeps the like
    tables free of duplicate (target, user) rows. *)
Theorem X1_run_keeps_pairs_unique (reqs : list Request) (st : State) :
  pairs_unique st → pairs_unique (run reqs st).
Proof.
  revert st. induction reqs as [|r reqs IH]; intros st Huniq; [done|].
  simpl. apply IH. by apply step_pairs_unique.
Qed.

(** X2.  If no like is duplicated and every user's ledger total equals
    the worth of the likes standing on that user's posts (5 each) and
    comments (1 each), the same holds after any sequence of toggle
    requests. *)
Theorem X2_run_keeps_ledger_in_step (reqs : list Request) (st : State) :
  pairs_unique st →
  (∀ u, ledger_karma st u = standing_karma st u) →
  ∀ u, ledger_karma (run reqs st) u = standing_karma (run reqs st) u.
Proof.
  revert st. induction reqs as [|r reqs IH]; intros st Huniq Hinv; [done|].
  simpl. apply IH; [by apply step_pairs_unique|].
  intros u. destruct (step_effect st r u Huniq) as (d & Hl & Hs & Hother).
  rewrite Hl, (standing_karma_step st r u d Hs Hother), Hinv. done.
Qed.

Lemma X1_witness :
  pairs_unique
    (run [mkRequest PostTarget 3000 POST 2 10; mkRequest PostTarget 3100 POST 2 10;
          mkRequest CommentTarget 3200 POST 1 100; mkRequest PostTarget 3300 DELETE 2 10]
       Sample.fresh_state).
Proof.
  apply X1_run_keeps_pairs_unique.
  intros []; apply (bool_decide_unpack _); vm_compute; exact I.
Defined.

Lemma X2_witness :
  ledger_karma
    (run [mkRequest PostTarget 3000 POST 2 10; mkRequest PostTarget 3100 POST 1 10;
          mkRequest CommentTarget 3200 POST 1 100; mkRequest PostTarget 3300 DELETE 2 10]
       Sample.fresh_state) 1
  = standing_karma
      (run [mkRequest PostTarget 3000 POST 2 10; mkRequest PostTarget 3100 POST 1 10;
            mkRequest CommentTarget 3200 POST 1 100; mkRequest PostTarget 3300 DELETE 2 10]
         Sample.fresh_state) 1.
Proof.
  apply X2_run_keeps_ledger_in_step.
  - intros []; apply (bool_decide_unpack _); vm_compute; exact I.
  - intros u. reflexivity.
Defined.

Lemma filter_fst_other (id id' user : Z) (l : list (Z * Z)) :
  id' ≠ id →
  filter (λ p, p.1 = id') (filter (λ p, p ≠ (id, user)) l)
  = filter (λ p, p.1 = id') l.
Proof.
  intros Hne. rewrite list_filter_filter. apply list_filter_iff.
  intros [i u]. simpl. split; [tauto|]. intros ->. split; [done|]. congruence.
Qed.

(** X3.  A toggle leaves the user, post and comment tables as they
    were, changes the like relation of no other (kind, target, user)
    triple and the like count of no other target. *)
Theorem X3_toggle_touches_one_pair kind now method user id st st' r :
  toggle_like kind now method user id st = Ok (st', r) →
  users st' = users st ∧ posts st' = posts st ∧ comments st' = comments st
  ∧ (∀ kind' id' user', (kind', id', user') ≠ (kind, id, user) →
       ((id', user') ∈ like_pairs kind' st' ↔ (id', user') ∈ like_pairs kind' st))
  ∧ (∀ kind' id', (kind', id') ≠ (kind, id) →
       relation_count kind' id' st' = relation_count kind' id' st).
Proof.
  intros Ht. destruct (toggle_like_Ok_target _ _ _ _ _ _ _ _ Ht) as [a Ha].
  destruct (toggle_like_tables kind now method user id st a Ha)
    as (st'' & r' & Ht' & Hs & Hother & Hcase).
  rewrite Ht in Ht'. injection Ht' as <- <-.
  destruct Hs as (Hu & Hp & Hc). split; [done|]. split; [done|]. split; [done|].
  split.
  - intros kind' id' user' Hne.
    destruct (decide (kind' = kind)) as [->|Hk]; [|by rewrite Hother].
    assert ((id', user') ≠ (id, user)) as Hne' by congruence.
    destruct method; destruct (decide ((id, user) ∈ like_pairs kind st));
      destruct Hcase as [-> _]; try done.
    + rewrite elem_of_app, list_elem_of_singleton. tauto.
    + rewrite list_elem_of_filter. tauto.
  - intros kind' id' Hne. unfold relation_count. rewrite !likers_like_pairs.
    destruct (decide (kind' = kind)) as [->|Hk]; [|by rewrite Hother].
    assert (id' ≠ id) as Hid by congruence.
    destruct method; destruct (decide ((id, user) ∈ like_pairs kind st));
      destruct Hcase as [-> _]; try done.
    + rewrite filter_app, filter_cons, decide_False by (simpl; congruence).
      by rewrite filter_nil, app_nil_r.
    + by rewrite filter_fst_other.
Qed.

Lemma X3_witness :
  users Sample.liked_state = users Sample.fresh_state
  ∧ posts Sample.liked_state = posts Sample.fresh_state
  ∧ comments Sample.liked_state = comments Sample.fresh_state
  ∧ (∀ kind' id' user', (kind', id', user') ≠ (PostTarget, 10, 2) →
       ((id', user') ∈ like_pairs kind' Sample.liked_state
        ↔ (id', user') ∈ like_pairs kind' Sample.fresh_state))
  ∧ (∀ kind' id', (kind', id') ≠ (PostTarget, 10) →
       relation_count kind' id' Sample.liked_state
       = relation_count kind' id' Sample.fresh_state).
Proof.
  apply (X3_toggle_touches_one_pair PostTarget 3000 POST 2 10
           Sample.fresh_state Sample.liked_state (mkLikeResponse true 1)).
  reflexivity.
Defined.

(** X4.  A toggle never ends in an [IntegrityError]: the only failure
    is the 404 of a target that does not exist, and every request on
    an existing target is answered. *)
Theorem X4_toggle_fails_only_with_404 kind now method user id st :
  toggle_like kind now method user id st ≠ IntegrityError
  ∧ (toggle_like kind now method user id st = Http404
     ↔ target_author kind id st = Http404)
  ∧ target_author kind id st ≠ IntegrityError.
Proof.
  destruct (target_author kind id st) as [a| |] eqn:Ha.
  - destruct (toggle_like_ledger kind now method user id st a Ha)
      as (st' & r & new & -> & _).
    repeat split; done.
  - assert (toggle_like kind now method user id st = Http404) as ->; [|done].
    destruct kind; simpl in *; unfold post_like, comment_like.
    + by destruct (get_object_or_404 post_id (posts st) id).
    + by destruct (get_object_or_404 comment_id (comments st) id).
  - exfalso. destruct kind; simpl in Ha; unfold get_object_or_404 in Ha.
    + by destruct (List.find _ (posts st)).
    + by destruct (List.find _ (comments st)).
Qed.

(** The flag of the answer against the state left behind. *)
Lemma toggle_like_liked kind now method user id st st' r :
  toggle_like kind now method user id st = Ok (st', r) →
  (liked r = true ↔ user ∈ likers kind id st').
Proof.
  intros Ht. destruct (toggle_like_Ok_target _ _ _ _ _ _ _ _ Ht) as [a Ha].
  destruct method; destruct (decide (user ∈ likers kind id st)) as [Hin|Hout].
  - rewrite (toggle_like_POST_dup kind now user id st a Ha Hin) in Ht.
    injection Ht as <- <-. done.
  - destruct (toggle_like_POST_fresh kind now user id st a Ha Hout)
      as (st1 & Ht1 & Hl & _).
    rewrite Ht in Ht1. injection Ht1 as <- ->. rewrite Hl, elem_of_app.
    simpl. split; [|done]. intros _. right. by apply list_elem_of_singleton.
  - destruct (toggle_like_DELETE_present kind now user id st a Ha Hin)
      as (st1 & Ht1 & Hl & _).
    rewrite Ht in Ht1. injection Ht1 as <- ->. rewrite Hl. simpl.
    split; [done|]. by intros ?%filter_ne_not_elem.
  - destruct (toggle_like_DELETE_absent kind now user id st a Ha Hout)
      as (st1 & Ht1 & Hl & _).
    rewrite Ht in Ht1. injection Ht1 as <- ->. rewrite Hl. simpl.
    split; [done|]. done.
Qed.

(** X5.  The [liked] flag of the answer tells whether the acting user
    likes the target in the state the toggle leaves behind. *)
Theorem X5_liked_reflects_state kind now method user id st st' r :
  toggle_like kind now method user id st = Ok (st', r) →
  (liked r = true ↔ user ∈ likers kind id st').
Proof.
  intros Ht. split; intros Hl.
  - by apply (toggle_like_liked kind now method user id st st' r Ht).
  - by apply (toggle_like_liked kind now method user id st st' r Ht).
Qed.

Lemma X5_witness :
  liked (mkLikeResponse true 1) = true ↔ 2 ∈ likers PostTarget 10 Sample.liked_state.
Proof.
  apply (X5_liked_reflects_state PostTarget 3000 POST 2 10 Sample.fresh_state).
  reflexivity.
Defined.

End RegistryProperties.

(** ** Further properties of the leaderboard *)

Section LeaderboardProperties.

Lemma window_karma_append now st st' e u :
  karma_events st' = karma_events st ++ [e] →
  window_karma now st' u
  = window_karma now st u
    + (if decide (in_window now e ∧ ke_user e = u) then ke_delta e else 0).
Proof.
  intros Hk. unfold window_karma, window. rewrite Hk, !filter_app, delta_sum_app.
  rewrite (filter_cons (in_window now)).
  destruct (decide (in_window now e)) as [Hw|Hw].
  - rewrite filter_cons. destruct (decide (ke_user e = u)).
    + rewrite decide_True by done. simpl. lia.
    + rewrite decide_False by tauto. simpl. lia.
  - rewrite decide_False by tauto. simpl. lia.
Qed.

(** X6.  When no ledger row is at most 24 hours old, in particular on
    an empty ledger, the leaderboard is empty. *)
Theorem X6_leaderboard_of_empty_window `{Backend} (now : Z) (st : State) :
  window now st = [] → leaderboard now st = [].
Proof.
  intros Hw. unfold leaderboard.
  assert (leaderboard_rows now st = []) as ->; [|done].
  rewrite leaderboard_rows_unfold. unfold grouped. rewrite Hw.
  assert (order_by_karma_desc (values_user_annotate_karma []) = []) as ->; [|done].
  apply Permutation_nil_r. exact (order_by_karma_desc_Permutation []).
Qed.

Lemma X6_witness :
  @leaderboard forward_backend Sample.noon Sample.fresh_state = [].
Proof. apply X6_leaderboard_of_empty_window. reflexivity. Defined.

(** X7.  Over a ledger whose beneficiaries are rows of the user table,
    when at most 5 distinct users have a ledger row in the window,
    every one of them is on the leaderboard with the sum of the
    deltas, be it zero or negative. *)
Theorem X7_small_leaderboard_lists_everyone `{Backend} (now : Z) (st : State) (u : Z) :
  ledger_users_resolve st →
  (length (remove_dups (window_users now st)) ≤ 5)%nat →
  u ∈ window_users now st →
  ∃ en, en ∈ leaderboard now st
        ∧ entry_user_id en = u
        ∧ entry_karma en = window_karma now st u.
Proof.
  intros Hfk Hfew Hu.
  assert (Hrows : leaderboard_rows now st = order_by_karma_desc (grouped now st)).
  { rewrite leaderboard_rows_unfold. apply take_ge.
    rewrite <- (length_fmap row_user), (ordered_users now st). done. }
  assert (u ∈ row_user <$> leaderboard_rows now st) as (r & -> & Hr)%list_elem_of_fmap.
  { rewrite Hrows, ordered_users. by apply elem_of_remove_dups. }
  pose proof (leaderboard_payload now st Hfk) as Hpay.
  apply list_elem_of_lookup in Hr as [i Hi].
  destruct (Forall2_lookup_l _ _ _ _ _ Hpay Hi) as (en & Hen & Heu & Hek).
  exists en. split; [apply list_elem_of_lookup; eauto|]. split; [done|].
  rewrite Hek. apply ordered_karma. rewrite <- Hrows. apply list_elem_of_lookup. eauto.
Qed.

(** Alice's karma is back to 0 after the round trip, and she is listed. *)
Lemma X7_witness :
  window_karma Sample.noon MoreSamples.round_trip_state 1 = 0
  ∧ ∃ en, en ∈ @leaderboard forward_backend Sample.noon MoreSamples.round_trip_state
          ∧ entry_user_id en = 1
          ∧ entry_karma en = window_karma Sample.noon MoreSamples.round_trip_state 1.
Proof.
  split; [reflexivity|].
  apply (@X7_small_leaderboard_lists_everyone forward_backend).
  - apply (bool_decide_unpack _). vm_compute. exact I.
  - vm_compute. lia.
  - vm_compute. left.
Defined.

Lemma relation_count_like_pairs kind id st :
  relation_count kind id st
  = Z.of_nat (length (filter (λ p, p.1 = id) (like_pairs kind st))).
Proof. unfold relation_count. by rewrite likers_like_pairs, length_fmap. Qed.

(** X8.  While no like is duplicated, a toggle on a target of author
    [a] changes the karma that a leaderboard whose window reaches back
    to the toggle sums for [a] by the like delta of the kind times the
    change of the like count, and changes nobody else's. *)
Theorem X8_karma_follows_like_count kind now method user id st st' r a now' u :
  pairs_unique st →
  target_author kind id st = Ok a →
  toggle_like kind now method user id st = Ok (st', r) →
  now' - hours_24 ≤ now →
  window_karma now' st' u
  = window_karma now' st u
    + (if decide (u = a)
       then policy_delta kind POST * (like_count r - relation_count kind id st)
       else 0).
Proof.
  intros Huniq Ha Ht Hnow.
  destruct (toggle_like_ledger kind now method user id st a Ha)
    as (st1 & r1 & new & Ht1 & _ & _ & Hcount & _).
  rewrite Ht in Ht1. injection Ht1 as <- <-. rewrite Hcount. clear Hcount.
  destruct (toggle_like_tables kind now method user id st a Ha)
    as (st2 & r2 & Ht2 & _ & _ & Hcase).
  rewrite Ht in Ht2. injection Ht2 as <- <-.
  rewrite !relation_count_like_pairs.
  assert (Hwin : ∀ m, in_window now' (policy_event kind m a user id now))
    by (intros m; exact Hnow).
  destruct method; destruct (decide ((id, user) ∈ like_pairs kind st)) as [Hin|Hout];
    destruct Hcase as [Hp Hk]; rewrite Hp.
  - unfold window_karma, window. rewrite Hk. destruct (decide (u = a)); lia.
  - rewrite (window_karma_append now' st st' _ u Hk).
    rewrite filter_app, length_app, filter_cons, filter_nil.
    rewrite (decide_True (P := (id, user).1 = id)) by done.
    simpl length. destruct (decide (u = a)) as [->|Hne].
    + rewrite decide_True by (split; [apply Hwin|done]). destruct kind; simpl; lia.
    + rewrite decide_False by (simpl; intros [_ ?]; congruence). done.
  - rewrite (window_karma_append now' st st' _ u Hk).
    rewrite filter_delete_length by auto.
    rewrite (decide_True (P := (id, user).1 = id)) by done.
    destruct (decide (u = a)) as [->|Hne].
    + rewrite decide_True by (split; [apply Hwin|done]). destruct kind; simpl; lia.
    + rewrite decide_False by (simpl; intros [_ ?]; congruence). done.
  - unfold window_karma, window. rewrite Hk. destruct (decide (u = a)); lia.
Qed.

Lemma X8_witness :
  window_karma 5000 Sample.liked_state 1
  = window_karma 5000 Sample.fresh_state 1
    + (if decide (1 = 1)
       then policy_delta PostTarget POST
            * (like_count (mkLikeResponse true 1)
               - relation_count PostTarget 10 Sample.fresh_state)
       else 0).
Proof.
  apply (X8_karma_follows_like_count PostTarget 3000 POST 2 10
           Sample.fresh_state Sample.liked_state (mkLikeResponse true 1) 1 5000 1).
  - intros []; apply (bool_decide_unpack _); vm_compute; exact I.
  - reflexivity.
  - reflexivity.
  - vm_compute. discriminate.
Defined.

End LeaderboardProperties.

(** ** The comment tree: what it contains *)

Section TreeContents.

Context (cs : list AnnotatedComment) (Hids : NoDup (c_id <$> cs)).
Implicit Types (c p o x r : AnnotatedComment).

Lemma comments_NoDup : NoDup cs.
Proof. by apply (NoDup_fmap_1 c_id). Qed.

Lemma under_trans o p c : under cs o p → under cs p c → under cs o c.
Proof.
  intros Hop Hpc. induction Hpc as [|c q Hc Hq Hpq IH]; [done|].
  by apply under_reply with q.
Qed.

Lemma under_direct_reply c r : r ∈ replies_of cs (c_id c) → under cs c r.
Proof.
  intros [Hp Hr]%list_elem_of_filter. apply under_reply with c; [done..|constructor].
Qed.

(** Below a comment that has a level everything has one. *)
Lemma level_under o c j : level cs o j → under cs o c → ∃ k, level cs c k.
Proof.
  intros Hj Hunder. induction Hunder as [|c p Hc Hp Hunder [k Hk]]; [eauto|].
  exists (S k). by apply level_reply with p.
Qed.

(** Levels grow downwards, strictly. *)
Lemma under_level_le o c j k :
  under cs o c → level cs o j → level cs c k → (j ≤ k)%nat ∧ (j = k → o = c).
Proof.
  intros Hunder Hj. revert k.
  induction Hunder as [|c p Hc Hp Hunder IH]; intros k Hk.
  - assert (j = k) as -> by (by eapply level_functional). done.
  - destruct Hk as [c _ Hroot|c p' k _ Hp' Hk]; [congruence|].
    assert (p = p') as ->.
    { apply (same_id cs Hids); [|exact (level_elem_of cs p' k Hk)|congruence].
      exact (under_elem_of cs o p (level_elem_of cs o j Hj) Hunder). }
    destruct (IH k Hk) as [Hle _]. split; lia.
Qed.

Lemma under_split c x :
  under cs c x → x = c ∨ ∃ r, r ∈ replies_of cs (c_id c) ∧ under cs r x.
Proof.
  induction 1 as [|x p Hx Hp Hunder [->|(r & Hr & Hrp)]]; [by left|..]; right.
  - exists x. split; [by apply list_elem_of_filter|constructor].
  - exists r. split; [done|]. by apply under_reply with p.
Qed.

Lemma level_under_root c k :
  level cs c k → ∃ root, root ∈ top_level cs ∧ under cs root c.
Proof.
  induction 1 as [c Hc Hroot|c p k Hc Hp Hk (root & Hr & Hunder)].
  - exists c. split; [by apply list_elem_of_filter|constructor].
  - exists root. split; [done|]. by apply under_reply with p.
Qed.

(** Two comments of the same level above one comment are the same. *)
Lemma ancestors_same_level o1 o2 x j :
  level cs o1 j → level cs o2 j → under cs o1 x → under cs o2 x → o1 = o2.
Proof.
  intros H1 H2 Hu1. induction Hu1 as [|x p Hx Hp Hu1 IH]; intros Hu2.
  - symmetry. by apply (under_level_le o2 o1 j j).
  - destruct (level_under o1 p j H1 Hu1) as [k Hk].
    assert (level cs x (S k)) as Hxk by (by apply level_reply with p).
    inversion Hu2 as [|? p' _ Hp' Hu2']; subst.
    + assert (j = S k) as -> by (by eapply level_functional).
      destruct (under_level_le o1 p (S k) k Hu1 H1 Hk). lia.
    + assert (p = p') as ->; [|by apply IH].
      apply (same_id cs Hids); [exact (level_elem_of cs p k Hk)| |congruence].
      exact (under_elem_of cs o2 p' (level_elem_of cs o2 j H2) Hu2').
Qed.

(** [covers c d]: the ids in [d] are, without repetition, those of
    [c] and of everything below [c]. *)
Definition covers c (d : CommentDict) : Prop :=
  NoDup (dict_ids d)
  ∧ (∀ i, i ∈ dict_ids d → ∃ x, x ∈ cs ∧ c_id x = i ∧ under cs c x)
  ∧ (∀ x, under cs c x → c_id x ∈ dict_ids d).

Lemma covers_forest_NoDup (rs : list AnnotatedComment) (ds : list CommentDict) j :
  Forall2 covers rs ds → NoDup rs → (∀ r, r ∈ rs → level cs r j) →
  NoDup (forest_ids ds).
Proof.
  intros Hcov. induction Hcov as [|r d rs ds Hr Hcov IH]; intros Hnd Hlev;
    [constructor|].
  apply NoDup_cons in Hnd as [Hnotin Hnd].
  change (forest_ids (d :: ds)) with (dict_ids d ++ forest_ids ds).
  apply NoDup_app. split; [apply Hr|].
  split; [|apply IH; [done|]; intros r' Hr'; apply Hlev; by right].
  intros i (x & Hx & Hix & Hux)%Hr (d' & Hd' & Hi')%elem_of_forest_ids.
  destruct (Forall2_elem_of_r _ _ _ _ Hcov Hd') as (r' & Hr' & Hcov').
  destruct (proj1 (proj2 Hcov') i Hi') as (x' & Hx' & Hix' & Hux').
  assert (x' = x) as -> by (apply (same_id cs Hids); [done..|congruence]).
  apply Hnotin.
  rewrite (ancestors_same_level r r' x j); [done|apply Hlev; left|apply Hlev; by right|done..].
Qed.

Lemma covers_node c k children :
  level cs c k →
  Forall2 covers (replies_of cs (c_id c)) children →
  covers c (dict_of c children).
Proof.
  intros Hk Hch. unfold covers. rewrite dict_ids_dict_of. split; [|split].
  - constructor.
    + intros (d & Hd & Hi)%elem_of_forest_ids.
      destruct (Forall2_elem_of_r _ _ _ _ Hch Hd) as (r & Hr & Hcov).
      destruct (proj1 (proj2 Hcov) _ Hi) as (x & Hx & Hix & Hux).
      assert (x = c) as ->.
      { apply (same_id cs Hids); [done|exact (level_elem_of cs c k Hk)|done]. }
      pose proof (level_of_reply cs c k r Hk Hr) as Hrk.
      destruct (under_level_le r c (S k) k Hux Hrk Hk). lia.
    + apply (covers_forest_NoDup (replies_of cs (c_id c)) children (S k) Hch).
      * apply NoDup_filter, comments_NoDup.
      * intros r Hr. by eapply level_of_reply.
  - intros i [->|(d & Hd & Hi)%elem_of_forest_ids]%elem_of_cons.
    + exists c. split; [exact (level_elem_of cs c k Hk)|]. split; [done|constructor].
    + destruct (Forall2_elem_of_r _ _ _ _ Hch Hd) as (r & Hr & Hcov).
      destruct (proj1 (proj2 Hcov) _ Hi) as (x & Hx & Hix & Hux).
      exists x. split; [done|]. split; [done|].
      apply under_trans with r; [by apply under_direct_reply|done].
  - intros x [->|(r & Hr & Hrx)]%under_split; [left|right].
    apply list_elem_of_lookup in Hr as [n Hn].
    destruct (Forall2_lookup_l _ _ _ _ _ Hch Hn) as (d & Hd & Hcov).
    apply elem_of_forest_ids. exists d. split; [apply list_elem_of_lookup; eauto|].
    by apply Hcov.
Qed.

Lemma build_comment_tree_covers fuel :
  (length cs ≤ fuel)%nat →
  ∃ forest,
    build_comment_tree fuel cs = Some forest
    ∧ NoDup (forest_ids forest)
    ∧ (∀ i, i ∈ forest_ids forest → ∃ x k, x ∈ cs ∧ c_id x = i ∧ level cs x k)
    ∧ (∀ x k, level cs x k → c_id x ∈ forest_ids forest).
Proof.
  intros Hfuel.
  destruct (build_comment_tree_total cs Hids covers fuel) as (forest & Hb & Hcov);
    [apply covers_node | done |].
  assert (Hroots : ∀ r, r ∈ top_level cs → level cs r 0).
  { intros r [Hroot Hr]%list_elem_of_filter. by constructor. }
  exists forest. split; [done|]. split; [|split].
  - apply (covers_forest_NoDup (top_level cs) forest 0%nat Hcov); [|done].
    apply NoDup_filter, comments_NoDup.
  - intros i (d & Hd & Hi)%elem_of_forest_ids.
    destruct (Forall2_elem_of_r _ _ _ _ Hcov Hd) as (r & Hr & Hc).
    destruct (proj1 (proj2 Hc) _ Hi) as (x & Hx & Hix & Hux).
    destruct (level_under r x 0 (Hroots r Hr) Hux) as [k Hk]. eauto.
  - intros x k (root & Hr & Hux)%level_under_root.
    apply list_elem_of_lookup in Hr as [n Hn].
    destruct (Forall2_lookup_l _ _ _ _ _ Hcov Hn) as (d & Hd & Hc).
    apply elem_of_forest_ids. exists d. split; [apply list_elem_of_lookup; eauto|].
    by apply Hc.
Qed.

(** In a list where replies come after their parents every comment
    has a level. *)
Lemma parents_first_level :
  parents_first cs → ∀ c, c ∈ cs → ∃ k, level cs c k.
Proof.
  intros Hpf c [i Hi]%list_elem_of_lookup. revert c Hi.
  induction (lt_wf i) as [i _ IH]; intros c Hi.
  destruct (c_parent_id c) as [p|] eqn:Hp.
  - destruct (Hpf i c p Hi Hp) as (j & q & Hj & Hq & <-).
    destruct (IH j Hj q Hq) as [k Hk]. exists (S k).
    apply level_reply with q; [apply list_elem_of_lookup; eauto|done..].
  - exists 0%nat. constructor; [apply list_elem_of_lookup; eauto|done].
Qed.

End TreeContents.

(** ** Further properties of the comment tree *)

Section TreeProperties.

(** X9.  For comments with distinct ids the forest holds no id twice,
    and a comment of the list is in it exactly when following its
    parent ids inside the list ends at a comment without parent. *)
Theorem X9_forest_holds_levelled_comments_once (cs : list AnnotatedComment) (fuel : nat) :
  NoDup (c_id <$> cs) →
  (length cs ≤ fuel)%nat →
  ∃ forest,
    build_comment_tree fuel cs = Some forest
    ∧ NoDup (forest_ids forest)
    ∧ ∀ c, c ∈ cs → (c_id c ∈ forest_ids forest ↔ ∃ k, level cs c k).
Proof.
  intros Hids Hfuel.
  destruct (build_comment_tree_covers cs Hids fuel Hfuel)
    as (forest & Hb & Hnd & Hin & Hout).
  exists forest. split; [done|]. split; [done|].
  intros c Hc. split; [|intros [k Hk]; by eapply Hout].
  intros (x & k & Hx & Hix & Hk)%Hin.
  assert (x = c) as -> by (by apply (same_id cs Hids)). eauto.
Qed.

Lemma X9_witness :
  ∃ forest,
    build_comment_tree 6 Sample.broken_thread = Some forest
    ∧ NoDup (forest_ids forest)
    ∧ ∀ c, c ∈ Sample.broken_thread →
        (c_id c ∈ forest_ids forest ↔ ∃ k, level Sample.broken_thread c k).
Proof.
  apply X9_forest_holds_levelled_comments_once.
  - apply (bool_decide_unpack _). vm_compute. exact I.
  - simpl. lia.
Defined.

(** X10.  For comments with distinct ids in which every reply comes
    after its parent, the ids in the forest are those of the list,
    each exactly once: no comment is lost and none is shown twice. *)
Theorem X10_forest_of_ordered_thread_is_complete (cs : list AnnotatedComment) (fuel : nat) :
  NoDup (c_id <$> cs) →
  parents_first cs →
  (length cs ≤ fuel)%nat →
  ∃ forest,
    build_comment_tree fuel cs = Some forest
    ∧ forest_ids forest ≡ₚ c_id <$> cs.
Proof.
  intros Hids Hpf Hfuel.
  destruct (build_comment_tree_covers cs Hids fuel Hfuel)
    as (forest & Hb & Hnd & Hin & Hout).
  exists forest. split; [done|]. apply NoDup_Permutation; [done..|].
  intros i. split.
  - intros (x & k & Hx & <- & _)%Hin. apply list_elem_of_fmap. eauto.
  - intros (c & -> & Hc)%list_elem_of_fmap.
    destruct (parents_first_level cs Hpf c Hc) as [k Hk]. by eapply Hout.
Qed.

Lemma X10_witness :
  ∃ forest,
    build_comment_tree 4 Sample.thread = Some forest
    ∧ forest_ids forest ≡ₚ c_id <$> Sample.thread.
Proof.
  apply X10_forest_of_ordered_thread_is_complete.
  - apply (bool_decide_unpack _). vm_compute. exact I.
  - intros i c p Hi Hp.
    destruct i as [|[|[|[|i]]]]; simpl in Hi; try discriminate;
      injection Hi as <-; simpl in Hp; try discriminate; injection Hp as <-.
    + exists 0%nat, Sample.comment_A. split; [lia|]. split; reflexivity.
    + exists 2%nat, Sample.comment_C. split; [lia|]. split; reflexivity.
  - simpl. lia.
Defined.

End TreeProperties.

(** ** Authentication by header *)

Section Authentication.

Lemma filter_key_absent {A} (f : A → string) (a : string) (l : list A) :
  a ∉ f <$> l → filter (λ x, f x = a) l = [].
Proof.
  induction l as [|x l IH]; [done|].
  rewrite fmap_cons, not_elem_of_cons. intros [Hne Hl].
  rewrite filter_cons, decide_False by congruence. auto.
Qed.

Lemma filter_unique_key {A} (f : A → string) (a : string) (l : list A) :
  NoDup (f <$> l) → (length (filter (λ x, f x = a) l) ≤ 1)%nat.
Proof.
  induction l as [|x l IH]; [simpl; lia|].
  rewrite fmap_cons. intros [Hx Hnd]%NoDup_cons.
  rewrite filter_cons. destruct (decide (f x = a)) as [<-|]; [|by apply IH].
  rewrite filter_key_absent by done. simpl. lia.
Qed.

(** X11.  Once a header value has authenticated as a user, presenting
    the same value again authenticates as the same user and changes
    nothing, whatever id the database would hand out. *)
Theorem X11_authenticate_is_idempotent new_id new_id' x_user st user st' :
  authenticate new_id x_user st = Authenticated user st' →
  authenticate new_id' x_user st' = Authenticated user st'.
Proof.
  unfold authenticate. destruct x_user as [name|]; [|discriminate].
  destruct (bool_decide (name = "")); [discriminate|].
  destruct (filter _ (users st)) as [|u [|u' rest]] eqn:Hf; [| |discriminate].
  - intros [= <- <-]. simpl. rewrite filter_app, Hf.
    rewrite filter_cons, decide_True by done. done.
  - intros [= <- <-]. by rewrite Hf.
Qed.

Lemma X11_witness :
  authenticate 8 (Some "carol") (set_users Sample.fresh_state
                                   (users Sample.fresh_state ++ [mkUser 3 "carol"]))
  = Authenticated (mkUser 3 "carol")
      (set_users Sample.fresh_state (users Sample.fresh_state ++ [mkUser 3 "carol"])).
Proof.
  apply (X11_authenticate_is_idempotent 3 8 (Some "carol") Sample.fresh_state).
  reflexivity.
Defined.

(** X12.  While user names are distinct, authentication never fails
    on several matches; the user it returns carries the presented
    name and is a row of the resulting user table, which is the old
    one or the old one with that user appended, and whose names are
    still distinct.  No other table changes. *)
Theorem X12_authenticate_keeps_names_unique new_id x_user st :
  NoDup (username <$> users st) →
  authenticate new_id x_user st ≠ MultipleObjectsReturned
  ∧ ∀ user st',
      authenticate new_id x_user st = Authenticated user st' →
      x_user = Some (username user)
      ∧ user ∈ users st'
      ∧ (st' = st ∨ ((username user ∉ username <$> users st)
                     ∧ st' = set_users st (users st ++ [user])))
      ∧ NoDup (username <$> users st').
Proof.
  intros Hnd. unfold authenticate. destruct x_user as [name|]; [|by split].
  destruct (bool_decide (name = "")); [by split|].
  pose proof (filter_unique_key username name (users st) Hnd) as Hlen.
  destruct (filter _ (users st)) as [|u [|u' rest]] eqn:Hf; [| |simpl in Hlen; lia].
  - split; [done|]. intros user st' [= <- <-]. simpl.
    assert (name ∉ username <$> users st) as Hfresh.
    { intros (u & Hu & Hin)%list_elem_of_fmap.
      assert (u ∈ filter (λ u, username u = name) (users st)) as Hin'
        by (by apply list_elem_of_filter).
      rewrite Hf in Hin'. by apply elem_of_nil in Hin'. }
    split; [done|]. split; [apply elem_of_app; right; by left|].
    split; [by right|].
    rewrite fmap_app. apply NoDup_app. split; [done|].
    split; [|apply NoDup_singleton].
    intros x Hx ->%list_elem_of_singleton. done.
  - split; [done|]. intros user st' [= <- <-].
    assert (u ∈ filter (λ u, username u = name) (users st)) as [Hname Hin]%list_elem_of_filter
      by (rewrite Hf; left).
    split; [by rewrite Hname|]. split; [done|]. split; [by left|done].
Qed.

Lemma X12_witness :
  authenticate 3 (Some "carol") Sample.fresh_state ≠ MultipleObjectsReturned
  ∧ ∀ user st',
      authenticate 3 (Some "carol") Sample.fresh_state = Authenticated user st' →
      Some "carol" = Some (username user)
      ∧ user ∈ users st'
      ∧ (st' = Sample.fresh_state
         ∨ ((username user ∉ username <$> users Sample.fresh_state)
            ∧ st' = set_users Sample.fresh_state (users Sample.fresh_state ++ [user])))
      ∧ NoDup (username <$> users st').
Proof.
  apply (X12_authenticate_keeps_names_unique 3 (Some "carol") Sample.fresh_state).
  apply (bool_decide_unpack _). vm_compute. exact I.
Defined.

End Authentication.

(** ** Creating comments *)

Section CreateComment.

Lemma find_bool_decide_Some {A} (P : A → Prop) `{!∀ x, Decision (P x)} (l : list A) :
  Exists P l → ∃ x, List.find (λ x, bool_decide (P x)) l = Some x ∧ P x ∧ x ∈ l.
Proof.
  induction 1 as [x l Hx|x l _ (y & Hy & HPy & Hin)]; simpl.
  - exists x. rewrite bool_decide_eq_true_2 by done. split; [done|]. split; [done|left].
  - destruct (decide (P x)) as [Hx|Hx].
    + exists x. rewrite bool_decide_eq_true_2 by done. split; [done|]. split; [done|left].
    + exists y. rewrite bool_decide_eq_false_2 by done. split; [done|]. split; [done|by right].
Qed.

Lemma find_bool_decide_None {A} (P : A → Prop) `{!∀ x, Decision (P x)} (l : list A) :
  ¬ Exists P l → List.find (λ x, bool_decide (P x)) l = None.
Proof.
  intros Hno. destruct (List.find _ l) as [x|] eqn:Hfind; [|done].
  apply find_some in Hfind as [Hin HP%bool_decide_eq_true].
  exfalso. apply Hno, Exists_exists. exists x. split; [by apply list_elem_of_In|done].
Qed.

(** The comment [create_comment] stores and the dict it answers with. *)
Definition new_comment (now new_id : Z) (user : User) (pid : Z) (body : string)
    (parent_id : option Z) : Comment :=
  mkComment new_id pid (user_id user) parent_id body now.

(** X13.  [create_comment] answers 404 exactly when the post id names
    no post or the parent id names no comment of that post, a comment
    of another post included.  Otherwise it appends one comment with
    the given post, author, parent and body to the comment table,
    changes no other table, and answers with that comment, no likes
    and no children. *)
Theorem X13_create_comment_checks_post_and_parent now new_id user pid body parent_id st :
  let valid :=
    Exists (λ p, post_id p = pid) (posts st)
    ∧ ∀ parent, parent_id = Some parent →
        Exists (λ q, comment_id q = parent ∧ comment_post q = pid) (comments st) in
  (valid →
     create_comment now new_id user pid body parent_id st
     = Ok (set_comments st
             (comments st ++ [new_comment now new_id user pid body parent_id]),
           mkCommentDict new_id body (user_id user) (username user) now 0 false []))
  ∧ (¬ valid → create_comment now new_id user pid body parent_id st = Http404).
Proof.
  intros valid. unfold create_comment, get_object_or_404, get_object_or_404_by.
  destruct (decide (Exists (λ p, post_id p = pid) (posts st))) as [Hpost|Hpost].
  - destruct (find_bool_decide_Some _ _ Hpost) as (post & -> & <- & _). simpl.
    destruct parent_id as [parent|].
    + destruct (decide (Exists (λ q, comment_id q = parent ∧ comment_post q = post_id post)
                          (comments st))) as [Hpar|Hpar].
      * destruct (find_bool_decide_Some _ _ Hpar) as (q & -> & [Hq _] & _). simpl.
        split; [intros _; by rewrite Hq|]. intros Hno. exfalso. apply Hno.
        split; [done|]. by intros ? [= <-].
      * rewrite (find_bool_decide_None _ _ Hpar). simpl.
        split; [|done]. intros [_ Hv]. exfalso. by apply Hpar, Hv.
    + simpl. split; [done|]. intros Hno. exfalso. apply Hno. by split.
  - rewrite (find_bool_decide_None _ _ Hpost). simpl.
    split; [|done]. by intros [? _].
Qed.

Lemma X13_witness :
  create_comment 5000 101 Sample.alice 10 "thanks" (Some 100) Sample.fresh_state
  = Ok (set_comments Sample.fresh_state
          (comments Sample.fresh_state
           ++ [new_comment 5000 101 Sample.alice 10 "thanks" (Some 100)]),
        mkCommentDict 101 "thanks" 1 "alice" 5000 0 false []).
Proof.
  apply (X13_create_comment_checks_post_and_parent 5000 101 Sample.alice 10 "thanks"
           (Some 100) Sample.fresh_state).
  split.
  - apply (bool_decide_unpack _). vm_compute. exact I.
  - intros parent [= <-]. apply (bool_decide_unpack _). vm_compute. exact I.
Defined.

Lemma create_comment_Ok now new_id user pid body parent_id st st' d :
  create_comment now new_id user pid body parent_id st = Ok (st', d) →
  comments st' = comments st ++ [new_comment now new_id user pid body parent_id]
  ∧ users st' = users st
  ∧ ∀ parent, parent_id = Some parent →
      Exists (λ q, comment_id q = parent ∧ comment_post q = pid) (comments st).
Proof.
  unfold create_comment.
  destruct (get_object_or_404 post_id (posts st) pid) as [post| |] eqn:Hpost;
    simpl; [|discriminate..].
  apply get_object_or_404_Ok in Hpost as [<- _].
  destruct parent_id as [parent|]; simpl.
  - unfold get_object_or_404_by.
    destruct (List.find _ (comments st)) as [q|] eqn:Hq; simpl; [|discriminate].
    apply find_some in Hq as [Hin [Hid Hqp]%bool_decide_eq_true].
    intros [= <- <-]. simpl. rewrite Hid. split; [done|]. split; [done|].
    intros ? [= <-]. apply Exists_exists. exists q.
    split; [by apply list_elem_of_In|done].
  - intros [= <- <-]. simpl. split; [done|]. split; [done|]. by intros ? [=].
Qed.

End CreateComment.

(** ** Threads: what create_comment keeps and what the post view shows *)

Section Threads.

(** X14.  If comment ids are distinct and every parent is an earlier
    comment of the same post, this still holds after [create_comment]
    has stored a comment under an id not yet in use. *)
Theorem X14_create_comment_keeps_thread_integrity
    now new_id user pid body parent_id st st' d :
  thread_integrity (comments st) →
  new_id ∉ comment_id <$> comments st →
  create_comment now new_id user pid body parent_id st = Ok (st', d) →
  thread_integrity (comments st').
Proof.
  intros [Hnd Hpar] Hfresh (Hcs & _ & Hparent)%create_comment_Ok. rewrite Hcs. split.
  - rewrite fmap_app. apply NoDup_app. split; [done|]. split; [|apply NoDup_singleton].
    intros x Hx ->%list_elem_of_singleton. done.
  - intros i c p Hi Hp.
    destruct (decide (i < length (comments st))%nat) as [Hlt|Hge].
    + rewrite lookup_app_l in Hi by done.
      destruct (Hpar i c p Hi Hp) as (j & q & Hj & Hq & Hid & Hpost).
      exists j, q. split; [done|]. split; [|done].
      rewrite lookup_app_l by lia. done.
    + rewrite lookup_app_r in Hi by lia.
      apply list_lookup_singleton_Some in Hi as [Hi <-]. simpl in Hp. subst parent_id.
      specialize (Hparent p eq_refl).
      apply Exists_exists in Hparent as (q & [j Hj]%list_elem_of_lookup & Hid & Hpost).
      exists j, q. split; [apply lookup_lt_Some in Hj; lia|].
      split; [|done]. rewrite lookup_app_l; [done|]. by eapply lookup_lt_Some.
Qed.

Lemma X14_witness :
  thread_integrity
    (comments (set_comments Sample.fresh_state
                 (comments Sample.fresh_state
                  ++ [new_comment 5000 101 Sample.alice 10 "thanks" (Some 100)]))).
Proof.
  apply (X14_create_comment_keeps_thread_integrity 5000 101 Sample.alice 10 "thanks"
           (Some 100) Sample.fresh_state _
           (mkCommentDict 101 "thanks" 1 "alice" 5000 0 false [])).
  - split; [apply (bool_decide_unpack _); vm_compute; exact I|].
    intros i c p Hi Hp. destruct i as [|i]; simpl in Hi; [|discriminate].
    injection Hi as <-. discriminate.
  - vm_compute. intros [[=]|[]%elem_of_nil]%elem_of_cons.
  - reflexivity.
Defined.

Lemma annotate_comment_Some viewer st c x :
  annotate_comment viewer st c = Some x →
  c_id x = comment_id c ∧ c_parent_id x = comment_parent c
  ∧ c_like_count x = CommentLike_count (comment_id c) st
  ∧ c_liked_by_me x
    = bool_decide (CommentLike_filter (comment_id c) viewer (comment_likes st) ≠ []).
Proof.
  unfold annotate_comment.
  destruct (select_related_author _ _); simpl; [|discriminate].
  by intros [= <-].
Qed.

Lemma annotate_comment_is_Some viewer st c :
  Exists (λ u, user_id u = comment_author c) (users st) →
  is_Some (annotate_comment viewer st c).
Proof.
  intros Hu. unfold annotate_comment, select_related_author.
  destruct (find_bool_decide_Some _ _ Hu) as (u & -> & _). simpl. eauto.
Qed.

Lemma NoDup_fmap_filter {A} (f : A → Z) (P : A → Prop) `{!∀ x, Decision (P x)}
    (l : list A) :
  NoDup (f <$> l) → NoDup (f <$> filter P l).
Proof.
  induction l as [|x l IH]; [done|].
  rewrite fmap_cons. intros [Hx Hnd]%NoDup_cons.
  rewrite filter_cons. destruct (decide (P x)); [|by apply IH].
  rewrite fmap_cons. constructor; [|by apply IH].
  intros (y & Hy & [_ Hin]%list_elem_of_filter)%list_elem_of_fmap.
  apply Hx, list_elem_of_fmap. eauto.
Qed.

Lemma omap_ids viewer st (l : list Comment) :
  Forall (λ c, is_Some (annotate_comment viewer st c)) l →
  c_id <$> omap (annotate_comment viewer st) l = comment_id <$> l.
Proof.
  induction 1 as [|c l [x Hx] _ IH]; [done|].
  change (omap (annotate_comment viewer st) (c :: l))
    with (match annotate_comment viewer st c with
          | Some y => y :: omap (annotate_comment viewer st) l
          | None => omap (annotate_comment viewer st) l
          end).
  rewrite Hx, !fmap_cons, IH.
  by destruct (annotate_comment_Some _ _ _ _ Hx) as (-> & _).
Qed.

Section OfPost.
Context `{!OrderBy created_at_asc}.
Context (st : State) (post viewer : Z).
Context (Hint : thread_integrity (comments st)).
Context (Hauth : comment_authors_resolve st).

Local Abbreviation of_post := (filter (λ c, comment_post c = post) (comments st)).

Lemma of_post_annotated :
  Forall (λ c, is_Some (annotate_comment viewer st c)) of_post.
Proof.
  apply Forall_forall. intros c [_ Hc]%list_elem_of_filter.
  apply annotate_comment_is_Some.
  unfold comment_authors_resolve in Hauth. rewrite Forall_forall in Hauth. auto.
Qed.

Lemma comments_queryset_ids :
  c_id <$> comments_queryset post viewer st ≡ₚ comment_id <$> of_post.
Proof.
  unfold comments_queryset. rewrite order_by_Permutation.
  by rewrite (omap_ids viewer st of_post of_post_annotated).
Qed.

Lemma comments_queryset_NoDup : NoDup (c_id <$> comments_queryset post viewer st).
Proof.
  rewrite comments_queryset_ids. apply NoDup_fmap_filter, Hint.
Qed.

Lemma comments_queryset_elem_of c x :
  c ∈ comments st → comment_post c = post → annotate_comment viewer st c = Some x →
  x ∈ comments_queryset post viewer st.
Proof.
  intros Hc Hp Hx. unfold comments_queryset. rewrite order_by_Permutation.
  apply list_elem_of_omap. exists c. split; [|done]. by apply list_elem_of_filter.
Qed.

(** Every comment of the post has a row in the queryset, and the row
    has a level there. *)
Lemma comments_queryset_level i c :
  comments st !! i = Some c → comment_post c = post →
  ∃ x k, annotate_comment viewer st c = Some x
         ∧ level (comments_queryset post viewer st) x k.
Proof.
  revert c. induction (lt_wf i) as [i _ IH]. intros c Hi Hpost.
  assert (c ∈ comments st) as Hc by (apply list_elem_of_lookup; eauto).
  destruct (annotate_comment_is_Some viewer st c) as [x Hx].
  { unfold comment_authors_resolve in Hauth. rewrite Forall_forall in Hauth. auto. }
  pose proof (comments_queryset_elem_of c x Hc Hpost Hx) as Hin.
  destruct (annotate_comment_Some _ _ _ _ Hx) as (Hid & Hparent & _).
  exists x. destruct (comment_parent c) as [p|] eqn:Hp.
  - destruct (proj2 Hint i c p Hi Hp) as (j & q & Hj & Hq & Hqid & Hqpost).
    destruct (IH j Hj q Hq) as (y & k & Hy & Hk); [congruence|].
    destruct (annotate_comment_Some _ _ _ _ Hy) as (Hyid & _).
    exists (S k). split; [done|]. apply level_reply with y; [done| |done].
    rewrite Hparent. congruence.
  - exists 0%nat. split; [done|]. by constructor.
Qed.

End OfPost.

(** The forest of a post in a state with thread integrity. *)
Lemma post_forest_complete `{!OrderBy created_at_asc}
    (fuel : nat) (post viewer : Z) (st : State) :
  thread_integrity (comments st) →
  comment_authors_resolve st →
  (length (comments st) ≤ fuel)%nat →
  ∃ forest,
    build_comment_tree_of_post fuel post viewer st = Some forest
    ∧ forest_ids forest
      ≡ₚ comment_id <$> filter (λ c, comment_post c = post) (comments st).
Proof.
  intros Hint Hauth Hfuel. unfold build_comment_tree_of_post.
  destruct (build_comment_tree_covers (comments_queryset post viewer st)
              (comments_queryset_NoDup st post viewer Hint Hauth) fuel)
    as (forest & Hb & Hnd & Hin & Hout).
  { rewrite <- (length_fmap c_id), (comments_queryset_ids st post viewer Hauth).
    rewrite length_fmap.
    etrans; [apply length_filter|done]. }
  exists forest. split; [done|].
  apply NoDup_Permutation; [done|apply NoDup_fmap_filter, Hint|].
  intros i. split.
  - intros (x & k & Hx & <- & _)%Hin.
    rewrite <- (comments_queryset_ids st post viewer Hauth).
    apply list_elem_of_fmap. eauto.
  - intros (c & -> & Hc)%list_elem_of_fmap.
    apply list_elem_of_filter in Hc as [Hpost [n Hn]%list_elem_of_lookup].
    destruct (comments_queryset_level st post viewer Hint Hauth n c Hn Hpost)
      as (x & k & Hx & Hk).
    destruct (annotate_comment_Some _ _ _ _ Hx) as (<- & _). by eapply Hout.
Qed.

(** X15.  In a state where comment ids are distinct, every parent is
    an earlier comment of the same post and every comment author is a
    row of the user table, the forest built for a post holds the ids
    of exactly the comments of that post, each once, whoever the
    viewer is and however the database orders equal creation times. *)
Theorem X15_post_forest_shows_every_comment_once `{!OrderBy created_at_asc}
    (fuel : nat) (post viewer : Z) (st : State) :
  thread_integrity (comments st) →
  comment_authors_resolve st →
  (length (comments st) ≤ fuel)%nat →
  ∃ forest,
    build_comment_tree_of_post fuel post viewer st = Some forest
    ∧ forest_ids forest
      ≡ₚ comment_id <$> filter (λ c, comment_post c = post) (comments st).
Proof.
  intros Hint Hauth Hfuel.
  destruct (post_forest_complete fuel post viewer st Hint Hauth Hfuel)
    as (forest & Hb & Hperm).
  exists forest. by split.
Qed.

Lemma discussion_state_integrity : thread_integrity (comments MoreSamples.discussion_state).
Proof.
  split; [apply (bool_decide_unpack _); vm_compute; exact I|].
  intros i c p Hi Hp.
  destruct i as [|[|[|[|[|i]]]]]; simpl in Hi; try discriminate;
    injection Hi as <-; simpl in Hp; try discriminate; injection Hp as <-.
  - exists 0%nat, (mkComment 100 10 2 None "hi" 2000). repeat split. lia.
  - exists 1%nat, (mkComment 101 10 1 (Some 100) "hi bob" 2100). repeat split. lia.
Qed.

Lemma X15_witness :
  ∃ forest,
    @build_comment_tree_of_post (merge_order_by created_at_asc) 5 10 2
      MoreSamples.discussion_state = Some forest
    ∧ forest_ids forest ≡ₚ [100; 101; 102; 103].
Proof.
  apply (@X15_post_forest_shows_every_comment_once (merge_order_by created_at_asc)
           5 10 2 MoreSamples.discussion_state).
  - exact discussion_state_integrity.
  - apply (bool_decide_unpack _). vm_compute. exact I.
  - simpl. lia.
Defined.

End Threads.

(** ** The read views against the toggles *)

Section ViewsAgree.

Lemma elem_of_forest_nodes (forest : list CommentDict) (n : CommentDict) :
  n ∈ forest_nodes forest ↔ ∃ d, d ∈ forest ∧ n ∈ dict_nodes d.
Proof.
  unfold forest_nodes. rewrite list_elem_of_In, in_concat. split.
  - intros (ns & (d & <- & Hd)%in_map_iff & Hn).
    exists d. split; by apply list_elem_of_In.
  - intros (d & Hd & Hn). exists (dict_nodes d).
    split; [apply in_map|]; by apply list_elem_of_In.
Qed.

(** Every dict of a forest is the dict of a comment of the list. *)
Lemma _comment_to_dict_nodes (cs : list AnnotatedComment) bp :
  (∀ q, default [] (bp !! q) = replies_of cs q) →
  ∀ fuel c d, c ∈ cs → _comment_to_dict fuel c bp = Some d →
    ∀ n, n ∈ dict_nodes d → ∃ x children, x ∈ cs ∧ n = dict_of x children.
Proof.
  intros Hbp. induction fuel as [|fuel IH]; intros c d Hc; [discriminate|].
  simpl. rewrite Hbp.
  destruct (mapM _ (replies_of cs (c_id c))) as [children|] eqn:Hm; [|discriminate].
  intros [= <-] n. apply mapM_Some_1 in Hm.
  change (dict_nodes (dict_of c children)) with (dict_of c children :: forest_nodes children).
  intros [->|(d' & Hd' & Hn)%elem_of_forest_nodes]%elem_of_cons; [eauto|].
  destruct (Forall2_elem_of_r _ _ _ _ Hm Hd') as (r & [_ Hr]%list_elem_of_filter & Hrd).
  by apply (IH r d' Hr Hrd).
Qed.

Lemma build_comment_tree_nodes fuel (cs : list AnnotatedComment) forest :
  build_comment_tree fuel cs = Some forest →
  ∀ n, n ∈ forest_nodes forest → ∃ x children, x ∈ cs ∧ n = dict_of x children.
Proof.
  destruct (build_comment_tree_unfold fuel cs) as (bp & -> & Hbp).
  intros Hm%mapM_Some_1 n (d & Hd & Hn)%elem_of_forest_nodes.
  destruct (Forall2_elem_of_r _ _ _ _ Hm Hd) as (r & [_ Hr]%list_elem_of_filter & Hrd).
  by apply (_comment_to_dict_nodes cs bp Hbp fuel r d).
Qed.

(** The answer of a toggle against the state it leaves behind. *)
Lemma toggle_like_response kind now method user id st st' r :
  toggle_like kind now method user id st = Ok (st', r) →
  like_count r = relation_count kind id st'
  ∧ (liked r = true ↔ user ∈ likers kind id st').
Proof.
  intros Ht. split; [|by apply (toggle_like_liked kind now method user id st)].
  destruct (toggle_like_Ok_target _ _ _ _ _ _ _ _ Ht) as [a Ha].
  destruct (toggle_like_ledger kind now method user id st a Ha)
    as (st1 & r1 & new & Ht1 & _ & _ & Hcount & _).
  rewrite Ht in Ht1. by injection Ht1 as <- <-.
Qed.


Lemma liked_by_me_comment (viewer cid : Z) (st : State) :
  bool_decide (CommentLike_filter cid viewer (comment_likes st) ≠ []) = true
  ↔ viewer ∈ likers CommentTarget cid st.
Proof.
  rewrite bool_decide_eq_true. unfold CommentLike_filter. simpl.
  rewrite (pair_filter_nil cl_comment cl_user cid viewer (comment_likes st)).
  split; [apply dec_stable|tauto].
Qed.

Lemma bool_eq_iff (b1 b2 : bool) : (b1 = true ↔ b2 = true) → b1 = b2.
Proof. destruct b1, b2; intuition congruence. Qed.

(** X16.  After a toggle on a comment has answered, every dict with
    that comment's id in any post's comment forest shows the
    [like_count] of the answer, for every viewer, and shows the acting
    user the [liked] flag of the answer as [liked_by_me]. *)
Theorem X16_comment_forest_agrees_with_toggle `{!OrderBy created_at_asc}
    now method user cid st st' r fuel post viewer forest :
  comment_like now method user cid st = Ok (st', r) →
  build_comment_tree_of_post fuel post viewer st' = Some forest →
  ∀ n, n ∈ forest_nodes forest → d_id n = cid →
    d_like_count n = like_count r
    ∧ (viewer = user → d_liked_by_me n = liked r).
Proof.
  intros Ht Hb n Hn Hid.
  destruct (toggle_like_response CommentTarget now method user cid st st' r Ht)
    as [Hcount Hliked].
  destruct (build_comment_tree_nodes _ _ _ Hb n Hn) as (x & children & Hx & ->).
  unfold comments_queryset in Hx. rewrite order_by_Permutation in Hx.
  apply list_elem_of_omap in Hx as (c & _ & Hc).
  destruct (annotate_comment_Some _ _ _ _ Hc) as (Hxid & _ & Hxcount & Hxliked).
  simpl in Hid. rewrite Hxid in Hid. subst cid. simpl. split.
  - by rewrite Hxcount, Hcount, relation_count_comment.
  - intros ->. rewrite Hxliked. apply bool_eq_iff.
    by rewrite liked_by_me_comment.
Qed.

Lemma X16_witness :
  d_like_count (dict_of (mkAnnotatedComment 100 None "hi" 2 "bob" 2000 1 true) [])
  = like_count (mkLikeResponse true 1)
  ∧ (1 = 1 →
     d_liked_by_me (dict_of (mkAnnotatedComment 100 None "hi" 2 "bob" 2000 1 true) [])
     = liked (mkLikeResponse true 1)).
Proof.
  apply (@X16_comment_forest_agrees_with_toggle (merge_order_by created_at_asc)
           4000 POST 1 100 Sample.fresh_state
           (set_comment_likes
              (set_karma_events Sample.fresh_state
                 [policy_event CommentTarget POST 2 1 100 4000])
              [mkCommentLike 100 1 4000])
           (mkLikeResponse true 1) 1 10 1
           [dict_of (mkAnnotatedComment 100 None "hi" 2 "bob" 2000 1 true) []]).
  - reflexivity.
  - reflexivity.
  - vm_compute. left.
  - reflexivity.
Defined.




End ViewsAgree.

(** ** Posts: creating, listing, reading *)

Section Posts.

Lemma find_snoc_fresh {A} (P : A → Prop) `{!∀ x, Decision (P x)} (l : list A) (x : A) :
  Forall (λ y, ¬ P y) l → P x →
  List.find (λ y, bool_decide (P y)) (l ++ [x]) = Some x.
Proof.
  intros Hl Hx. induction Hl as [|y l Hy _ IH]; simpl.
  - by rewrite bool_decide_eq_true_2.
  - by rewrite bool_decide_eq_false_2.
Qed.

Lemma filter_none {A} (P : A → Prop) `{!∀ x, Decision (P x)} (l : list A) :
  Forall (λ y, ¬ P y) l → filter P l = [].
Proof.
  induction 1 as [|y l Hy _ IH]; [done|].
  by rewrite filter_cons, decide_False.
Qed.

(** X18.  The first like of a post that was just created under an id
    no post and no like row uses yet answers [liked = true] with
    [like_count = 1], stores the like and credits the creator of the
    post with 5. *)
Theorem X18_first_like_on_new_post now new_id author body t user st :
  new_id ∉ post_id <$> posts st →
  Forall (λ l, pl_post l ≠ new_id) (post_likes st) →
  ∃ st2,
    post_like t POST user new_id (perform_create now new_id author body st).1
    = Ok (st2, mkLikeResponse true 1)
    ∧ post_likes st2 = post_likes st ++ [mkPostLike new_id user t]
    ∧ karma_events st2
      = karma_events st ++ [mkKarmaEvent author user "post_like" 5 (Some new_id) None t].
Proof.
  intros Hfresh Hlikes. unfold post_like, perform_create, get_object_or_404. simpl.
  rewrite (find_snoc_fresh (λ p, post_id p = new_id)); [|..|done].
  - simpl. unfold PostLike_create, PostLike_filter. simpl.
    rewrite (filter_none (λ l, pl_post l = new_id ∧ pl_user l = user)).
    + simpl.
      match goal with |- ∃ st2, Ok (?s, _) = _ ∧ _ => exists s end.
      split; [|split; reflexivity].
      do 3 f_equal. unfold PostLike_count. simpl.
      rewrite filter_app, (filter_none (λ l, pl_post l = new_id)) by done.
      by rewrite filter_cons, decide_True.
    + eapply Forall_impl; [exact Hlikes|]. simpl. tauto.
  - apply Forall_forall. intros p Hp Hid. apply Hfresh.
    apply list_elem_of_fmap. eauto.
Qed.

Lemma X18_witness :
  ∃ st2,
    post_like 7000 POST 2 30 (perform_create 6000 30 1 "news" Sample.liked_state).1
    = Ok (st2, mkLikeResponse true 1)
    ∧ post_likes st2 = post_likes Sample.liked_state ++ [mkPostLike 30 2 7000]
    ∧ karma_events st2
      = karma_events Sample.liked_state
        ++ [mkKarmaEvent 1 2 "post_like" 5 (Some 30) None 7000].
Proof.
  apply X18_first_like_on_new_post.
  - vm_compute. intros [[=]|[]%elem_of_nil]%elem_of_cons.
  - apply (bool_decide_unpack _). vm_compute. exact I.
Defined.

Section Listing.
Context `{!OrderBy newest_first}.

(** X19.  Creating a post adds exactly one item to the post list of
    every viewer and leaves the other items as they were; when no like
    row and no comment uses the new id, and user ids are
    distinct, the new item shows the body, the author and the creation
    time given, no likes, no comments and [liked_by_me = false]. *)
Theorem X19_created_post_is_listed_once now new_id author body viewer st u :
  NoDup (user_id <$> users st) →
  u ∈ users st → user_id u = author →
  Forall (λ l, pl_post l ≠ new_id) (post_likes st) →
  Forall (λ c, comment_post c ≠ new_id) (comments st) →
  post_list viewer (perform_create now new_id author body st).1
  ≡ₚ mkPostListItem new_id body author (username u) now 0 0 false
     :: post_list viewer st.
Proof.
  intros Hids Hu Hid Hlikes Hcomments. unfold post_list, perform_create. simpl.
  assert (Hname : ∀ u', u' ∈ users st → user_id u' = author → u' = u).
  { intros u' [i Hi]%list_elem_of_lookup Hid'.
    apply list_elem_of_lookup in Hu as [j Hj].
    assert (i = j) as ->; [|congruence].
    eapply NoDup_lookup; [exact Hids|..].
    - rewrite list_lookup_fmap, Hi. reflexivity.
    - rewrite list_lookup_fmap, Hj. simpl. congruence. }
  rewrite !order_by_Permutation, omap_app. simpl.
  set (st1 := set_posts st (posts st ++ [mkPost new_id author body now])).
  assert (omap (annotate_post viewer st1) (posts st)
          = omap (annotate_post viewer st) (posts st)) as -> by done.
  assert (annotate_post viewer st1 (mkPost new_id author body now)
          = Some (mkPostListItem new_id body author (username u) now 0 0 false)) as ->.
  { unfold annotate_post, select_related_author. simpl.
    destruct (find_bool_decide_Some (λ u', user_id u' = author) (users st))
      as (u' & -> & Hid' & Hu'); [apply Exists_exists; eauto|].
    simpl. rewrite (Hname u' Hu' Hid').
    unfold PostLike_count, PostLike_filter. simpl.
    rewrite (filter_none (λ l, pl_post l = new_id)) by done.
    rewrite (filter_none (λ c, comment_post c = new_id)) by done.
    rewrite (filter_none (λ l, pl_post l = new_id ∧ pl_user l = viewer)); [done|].
    eapply Forall_impl; [exact Hlikes|]. simpl. tauto. }
  simpl. by rewrite <- Permutation_cons_append.
Qed.

End Listing.

Lemma X19_witness :
  @post_list (merge_order_by newest_first) 2
    (perform_create 6000 30 1 "news" Sample.liked_state).1
  ≡ₚ mkPostListItem 30 "news" 1 "alice" 6000 0 0 false
     :: @post_list (merge_order_by newest_first) 2 Sample.liked_state.
Proof.
  apply (@X19_created_post_is_listed_once (merge_order_by newest_first)
           6000 30 1 "news" 2 Sample.liked_state Sample.alice).
  - apply (bool_decide_unpack _). vm_compute. exact I.
  - vm_compute. left.
  - reflexivity.
  - apply (bool_decide_unpack _). vm_compute. exact I.
  - apply (bool_decide_unpack _). vm_compute. exact I.
Defined.

Section Reading.
Context `{!OrderBy created_at_asc}.

(** X20.  In a state where comment ids are distinct, every parent is
    an earlier comment of the same post, and post and comment authors
    are rows of the user table, [retrieve] answers 404 exactly for an
    id that no post has; for the id of a post it answers with that
    post and a comment forest that holds the ids of exactly the
    comments of the post, each once. *)
Theorem X20_retrieve_shows_post_with_all_comments fuel viewer pk st :
  thread_integrity (comments st) →
  comment_authors_resolve st →
  post_authors_resolve st →
  (length (comments st) ≤ fuel)%nat →
  (pk ∉ post_id <$> posts st → retrieve fuel viewer pk st = Http404)
  ∧ (pk ∈ post_id <$> posts st →
     ∃ detail,
       retrieve fuel viewer pk st = Ok (Some detail)
       ∧ pd_id detail = pk
       ∧ forest_ids (pd_comments detail)
         ≡ₚ comment_id <$> filter (λ c, comment_post c = pk) (comments st)).
Proof.
  intros Hint Hca Hpa Hfuel. unfold retrieve, get_object_or_404_by. split.
  - intros Hout. rewrite find_bool_decide_None; [done|].
    intros (p & Hp & Hid & _)%Exists_exists. apply Hout, list_elem_of_fmap. eauto.
  - intros (p & -> & Hp)%list_elem_of_fmap.
    unfold post_authors_resolve in Hpa. rewrite Forall_forall in Hpa.
    assert (∀ q, q ∈ posts st → is_Some (select_related_author (users st) (post_author q)))
      as Hres.
    { intros q Hq. unfold select_related_author.
      destruct (find_bool_decide_Some _ _ (Hpa q Hq)) as (u & -> & _). eauto. }
    destruct (find_bool_decide_Some
                (λ q, post_id q = post_id p
                      ∧ is_Some (select_related_author (users st) (post_author q)))
                (posts st)) as (q & -> & [Hqid _] & Hq).
    { apply Exists_exists. exists p. auto. }
    simpl. destruct (Hres q Hq) as [u ->]. simpl.
    destruct (post_forest_complete fuel (post_id q) viewer st Hint Hca Hfuel)
      as (forest & -> & Hperm).
    simpl. eexists. split; [reflexivity|]. simpl. split; [done|].
    by rewrite <- Hqid.
Qed.

End Reading.

Lemma X20_witness :
  (99 ∉ post_id <$> posts MoreSamples.discussion_state →
   @retrieve (merge_order_by created_at_asc) 5 2 99 MoreSamples.discussion_state = Http404)
  ∧ (10 ∈ post_id <$> posts MoreSamples.discussion_state →
     ∃ detail,
       @retrieve (merge_order_by created_at_asc) 5 2 10 MoreSamples.discussion_state
       = Ok (Some detail)
       ∧ pd_id detail = 10
       ∧ forest_ids (pd_comments detail) ≡ₚ [100; 101; 102; 103]).
Proof.
  split.
  - apply (@X20_retrieve_shows_post_with_all_comments (merge_order_by created_at_asc)
             5 2 99 MoreSamples.discussion_state).
    + exact discussion_state_integrity.
    + apply (bool_decide_unpack _). vm_compute. exact I.
    + apply (bool_decide_unpack _). vm_compute. exact I.
    + simpl. lia.
  - apply (@X20_retrieve_shows_post_with_all_comments (merge_order_by created_at_asc)
             5 2 10 MoreSamples.discussion_state).
    + exact discussion_state_integrity.
    + apply (bool_decide_unpack _). vm_compute. exact I.
    + apply (bool_decide_unpack _). vm_compute. exact I.
    + simpl. lia.
Defined.

End Posts.
